(** * Runs test above/below the threshold: a shallow embedding of script.py

    The statistical core of [script.py] (SequenceGenerator, RunsCounter,
    StatisticsCalculator, CriticalValueProvider, HypothesisValidator and
    RunsTestService) is embedded over a small model of Python numbers:
    unbounded integers and IEEE 754 binary64 floats, the latter through the
    executable specification [SpecFloat] with [prec = 53], [emax = 1024].
    Operations that can raise in Python return in an error monad. *)

From Stdlib Require Import ZArith List Bool Lia QArith Qabs.
From Stdlib Require Import Floats.SpecFloat.
Import ListNotations.

Open Scope Z_scope.

(** ** Python numbers *)

Module Py.

(** The exceptions the arithmetic of the core can raise.  The last
    constructor is the name the specification gives to the failure on an
    empty sample; nothing in [script.py] raises it. *)
Inductive exn : Set :=
| ZeroDivisionError
| OverflowError
| ValueError
| KeyError
| InvalidInputError.

Inductive result (A : Type) : Type :=
| Ok (a : A)
| Raise (e : exn).

Arguments Ok {A} a.
Arguments Raise {A} e.

Definition bind {A B : Type} (c : result A) (k : A -> result B) : result B :=
  match c with
  | Ok a => k a
  | Raise e => Raise e
  end.

Definition prec : Z := 53.
Definition emax : Z := 1024.

Definition float : Set := spec_float.

(** A Python number: an [int] of any size or a [float]. *)
Inductive value : Set :=
| VInt (z : Z)
| VFloat (f : float).

(** An integer as an exact, unrounded binary float (exponent 0). *)
Definition Z2SF (z : Z) : float :=
  match z with
  | Z0 => S754_zero false
  | Zpos p => S754_finite false p 0
  | Zneg p => S754_finite true p 0
  end.

(** [float(z)]: round to nearest even; a value beyond the largest finite
    double raises. *)
Definition float_of_int (z : Z) : result float :=
  match binary_normalize prec emax z 0 false with
  | S754_infinity _ => Raise OverflowError
  | f => Ok f
  end.

(** [a / b] on two ints: the correctly rounded quotient. *)
Definition int_truediv (a b : Z) : result float :=
  if b =? 0 then Raise ZeroDivisionError
  else match SFdiv prec emax (Z2SF a) (Z2SF b) with
       | S754_infinity _ => Raise OverflowError
       | f => Ok f
       end.

(** A decimal literal [num/den] (such as [0.05] = 5/100): the nearest
    double, as Python's parser produces it. *)
Definition decimal (num den : positive) : float :=
  SFdiv prec emax (Z2SF (Zpos num)) (Z2SF (Zpos den)).

Definition is_zero (f : float) : bool :=
  match f with
  | S754_zero _ => true
  | _ => false
  end.

Definition is_nan (f : float) : bool :=
  match f with
  | S754_nan => true
  | _ => false
  end.

(** [x / y] on two floats raises on a zero divisor and nowhere else. *)
Definition float_truediv (x y : float) : result float :=
  if is_zero y then Raise ZeroDivisionError else Ok (SFdiv prec emax x y).

Definition to_float (v : value) : result float :=
  match v with
  | VInt z => float_of_int z
  | VFloat f => Ok f
  end.

Definition arith (fz : Z -> Z -> Z) (ff : float -> float -> float)
           (a b : value) : result value :=
  match a, b with
  | VInt x, VInt y => Ok (VInt (fz x y))
  | _, _ =>
      bind (to_float a) (fun x =>
      bind (to_float b) (fun y =>
      Ok (VFloat (ff x y))))
  end.

Definition add := arith Z.add (SFadd prec emax).
Definition sub := arith Z.sub (SFsub prec emax).
Definition mul := arith Z.mul (SFmul prec emax).

Definition truediv (a b : value) : result value :=
  match a, b with
  | VInt x, VInt y => bind (int_truediv x y) (fun q => Ok (VFloat q))
  | _, _ =>
      bind (to_float a) (fun x =>
      bind (to_float b) (fun y =>
      bind (float_truediv x y) (fun q => Ok (VFloat q))))
  end.

(** An int against a float is compared exactly, without rounding the int. *)
Definition Zcompare_float (z : Z) (f : float) : option comparison :=
  match f with
  | S754_nan => None
  | S754_infinity s => Some (if s then Gt else Lt)
  | S754_zero _ => Some (z ?= 0)
  | S754_finite s m e =>
      Some (z * 2 ^ Z.max 0 (- e) ?= cond_Zopp s (Zpos m) * 2 ^ Z.max 0 e)
  end.

Definition compare (a b : value) : option comparison :=
  match a, b with
  | VInt x, VInt y => Some (x ?= y)
  | VFloat x, VFloat y => SFcompare x y
  | VInt x, VFloat y => Zcompare_float x y
  | VFloat x, VInt y => option_map CompOpp (Zcompare_float y x)
  end.

Definition eqb (a b : value) : bool :=
  match compare a b with Some Eq => true | _ => false end.
Definition neb (a b : value) : bool := negb (eqb a b).
Definition ltb (a b : value) : bool :=
  match compare a b with Some Lt => true | _ => false end.
Definition leb (a b : value) : bool :=
  match compare a b with Some (Lt | Eq) => true | _ => false end.
Definition gtb (a b : value) : bool :=
  match compare a b with Some Gt => true | _ => false end.

Definition abs (v : value) : value :=
  match v with
  | VInt z => VInt (Z.abs z)
  | VFloat f => VFloat (SFabs f)
  end.

(** [math.sqrt]: the argument is converted to a float; a result that is
    NaN for an argument that is not is a domain error. *)
Definition math_sqrt (v : value) : result float :=
  bind (to_float v) (fun x =>
  let r := SFsqrt prec emax x in
  if is_nan r && negb (is_nan x) then Raise ValueError else Ok r).

(** *** The exact value of a number

    Every finite binary64 is an integer multiple of [2 ^ -1074], the
    smallest subnormal; [scaled] is that integer and [to_Q] the rational
    it stands for. *)
Definition scaled_float (f : float) : Z :=
  match f with
  | S754_finite s m e => cond_Zopp s (Zpos m) * 2 ^ (e + 1074)
  | _ => 0
  end.

Definition scaled (v : value) : Z :=
  match v with
  | VInt z => z * 2 ^ 1074
  | VFloat f => scaled_float f
  end.

Definition to_Q (v : value) : Q := Qmake (scaled v) (2 ^ 1074)%positive.

Definition is_finite (v : value) : bool :=
  match v with
  | VInt _ => true
  | VFloat (S754_zero _) | VFloat (S754_finite _ _ _) => true
  | VFloat _ => false
  end.

(** A float is a genuine binary64 when its mantissa and exponent are in
    range; an int always is a genuine int. *)
Definition valid (v : value) : bool :=
  match v with
  | VInt _ => true
  | VFloat f => valid_binary prec emax f
  end.

End Py.

Import Py.

Notation "x <- c ;; k" := (Py.bind c (fun x => k))
  (at level 61, c at next level, right associativity).

(** ** Data model *)

(** [RunsTestResult]: the record [execute] assembles. *)
Record RunsTestResult : Set := {
  sequence : list Z;
  c0 : Z;
  n0 : Z;
  n1 : Z;
  n : Z;
  mu_c0 : value;
  variance : value;
  sigma_c0 : value;
  z0 : value;
  z_critical : value;
  is_independent : bool;
  alpha : value;
  confidence : value
}.

(** ** SequenceGenerator *)

Definition THRESHOLD : float := decimal 5 10.

(** [[0 if value < THRESHOLD else 1 for value in data]] *)
Definition generate (data : list value) : list Z :=
  map (fun v => if Py.ltb v (VFloat THRESHOLD) then 0 else 1) data.

(** ** RunsCounter *)

(** One turn of the loop of [count]: [if sequence[i] != sequence[i - 1]: runs += 1].
    The loop only visits indices 1 .. len - 1, so both lookups are in range. *)
Definition count_step (sequence : list Z) (runs : Z) (i : nat) : Z :=
  if negb (nth i sequence 0 =? nth (i - 1) sequence 0) then runs + 1 else runs.

(** [count]: 0 on the empty sequence, otherwise [runs] starts at 1 and the
    loop runs over [range(1, len(sequence))]. *)
Definition count (sequence : list Z) : Z :=
  match sequence with
  | [] => 0
  | _ :: _ => fold_left (count_step sequence) (seq 1 (length sequence - 1)) 1
  end.

(** [list.count(x)] *)
Definition list_count (x : Z) (l : list Z) : Z :=
  Z.of_nat (length (filter (Z.eqb x) l)).

Definition count_values (sequence : list Z) : Z * Z :=
  (list_count 0 sequence, list_count 1 sequence).

(** ** StatisticsCalculator *)

(** [(2 * n0 * n1) / n + 0.5] *)
Definition calculate_expected_runs (n0 n1 n : value) : result value :=
  a <- Py.mul (VInt 2) n0 ;;
  b <- Py.mul a n1 ;;
  q <- Py.truediv b n ;;
  Py.add q (VFloat (decimal 5 10)).

Definition calculate_variance (n0 n1 n : value) : result value :=
  if Py.leb n (VInt 1) then Ok (VInt 0)
  else
    a <- Py.mul (VInt 2) n0 ;;
    b <- Py.mul a n1 ;;
    c <- Py.mul (VInt 2) n0 ;;
    d <- Py.mul c n1 ;;
    e <- Py.sub d n ;;
    numerator <- Py.mul b e ;;
    nn <- Py.mul n n ;;
    m <- Py.sub n (VInt 1) ;;
    denominator <- Py.mul nn m ;;
    if Py.neb denominator (VInt 0) then Py.truediv numerator denominator
    else Ok (VInt 0).

Definition calculate_z_statistic (c0 mu_c0 variance : value) : result value :=
  if Py.leb variance (VInt 0) then Ok (VInt 0)
  else
    sigma_c0 <- math_sqrt variance ;;
    d <- Py.sub c0 mu_c0 ;;
    Py.truediv d (VFloat sigma_c0).

(** ** CriticalValueProvider *)

Definition Z_TABLE : list (float * float) :=
  [ (decimal 1 100, decimal 2576 1000);
    (decimal 5 100, decimal 196 100);
    (decimal 10 100, decimal 1645 1000) ].

Definition DEFAULT_ALPHA : float := decimal 5 100.

(** Lookup of a key in a dict with float keys: the entry whose key compares
    equal to it. *)
Fixpoint dict_lookup (k : value) (d : list (float * float)) : option float :=
  match d with
  | [] => None
  | (k', v) :: d' => if Py.eqb k (VFloat k') then Some v else dict_lookup k d'
  end.

(** [d[k]] *)
Definition dict_getitem (d : list (float * float)) (k : value) : result float :=
  match dict_lookup k d with
  | Some v => Ok v
  | None => Raise KeyError
  end.

(** [d.get(k, default)] *)
Definition dict_get (d : list (float * float)) (k : value) (default : float) : float :=
  match dict_lookup k d with
  | Some v => v
  | None => default
  end.

(** [cls.Z_TABLE.get(alpha, cls.Z_TABLE[cls.DEFAULT_ALPHA])] *)
Definition get_critical_value (alpha : value) : result value :=
  default <- dict_getitem Z_TABLE (VFloat DEFAULT_ALPHA) ;;
  Ok (VFloat (dict_get Z_TABLE alpha default)).

(** ** HypothesisValidator *)

(** [abs(z0) <= z_critical] *)
Definition validate (z0 z_critical : value) : bool :=
  Py.leb (Py.abs z0) z_critical.

(** ** RunsTestService *)

Definition execute (data : list value) (alpha : value) : result RunsTestResult :=
  let sequence := generate data in
  let c0 := count sequence in
  let '(n0, n1) := count_values sequence in
  let n := Z.of_nat (length data) in
  mu_c0 <- calculate_expected_runs (VInt n0) (VInt n1) (VInt n) ;;
  variance <- calculate_variance (VInt n0) (VInt n1) (VInt n) ;;
  sigma_c0 <- (if Py.gtb variance (VInt 0)
               then s <- math_sqrt variance ;; Ok (VFloat s)
               else Ok (VInt 0)) ;;
  z0 <- calculate_z_statistic (VInt c0) mu_c0 variance ;;
  z_critical <- get_critical_value alpha ;;
  let is_independent := validate z0 z_critical in
  one_minus_alpha <- Py.sub (VInt 1) alpha ;;
  confidence <- Py.mul one_minus_alpha (VInt 100) ;;
  Ok {| sequence := sequence; c0 := c0; n0 := n0; n1 := n1; n := n;
        mu_c0 := mu_c0; variance := variance; sigma_c0 := sigma_c0;
        z0 := z0; z_critical := z_critical; is_independent := is_independent;
        alpha := alpha; confidence := confidence |}.

(** ** Notions used in the statements *)

(** The number of bits [shr_fexp] drops from a mantissa [m] at exponent [e]. *)
Definition shift (m e : Z) : Z := Z.max 0 (fexp prec emax (Zdigits2 m + e) - e).

(** The float [binary_round_aux] builds from the final mantissa and exponent. *)
Definition pack (sx : bool) (m e : Z) : float :=
  match m with
  | Z0 => S754_zero sx
  | Zpos p => if e <=? emax - prec then S754_finite sx p e else S754_infinity sx
  | Zneg _ => S754_nan
  end.

(** [f] is a zero, a finite float or an infinity of sign [sx], not NaN. *)
Definition has_sign (sx : bool) (f : float) : Prop :=
  match f with
  | S754_zero s | S754_infinity s | S754_finite s _ _ => s = sx
  | S754_nan => False
  end.

(** The number of positions of [l] whose symbol differs from the one
    before it, [prev] being the symbol before the head. *)
Fixpoint changes (prev : Z) (l : list Z) : Z :=
  match l with
  | [] => 0
  | y :: l' => (if negb (y =? prev) then 1 else 0) + changes y l'
  end.

(** A binary sequence, as the encoder produces them. *)
Definition binary (sequence : list Z) : Prop :=
  Forall (fun x => x = 0 \/ x = 1) sequence.

(** A number that is not [<= 0] is a positive int, a positive float,
    plus infinity or NaN. *)
Definition positive_or_nan (v : value) : Prop :=
  match v with
  | VInt z => 0 < z
  | VFloat (S754_finite s _ _) | VFloat (S754_infinity s) => s = false
  | VFloat S754_nan => True
  | VFloat (S754_zero _) => False
  end.

(** A float that is +0 or positive and finite. *)
Definition nonneg_finite (f : float) : Prop :=
  match f with
  | S754_zero s | S754_finite s _ _ => s = false
  | _ => False
  end.

(** What [calculate_variance] can return on counts: the int 0 or a
    non-negative finite double. *)
Definition nonneg_value (v : value) : Prop :=
  match v with
  | VInt z => z = 0
  | VFloat f => nonneg_finite f
  end.

(** The sample of the end-to-end scenario: [0.1, 0.9, 0.2, 0.8, 0.3]. *)
Definition sample5 : list value :=
  map VFloat [decimal 1 10; decimal 9 10; decimal 2 10; decimal 8 10; decimal 3 10].

(** ** DataParser and the controller of the test *)

(** A Python [str]: its code points. *)
Definition str : Set := list N.

Definition COMMA : N := 44.
Definition SPACE : N := 32.
Definition DOT : N := 46.

(** The characters [str.split()] and [str.strip()] treat as whitespace. *)
Definition isspace (c : N) : bool :=
  (((9 <=? c) && (c <=? 13)) || ((28 <=? c) && (c <=? 32)) ||
   (c =? 133) || (c =? 160) || (c =? 5760) ||
   ((8192 <=? c) && (c <=? 8202)) ||
   (c =? 8232) || (c =? 8233) || (c =? 8239) || (c =? 8287) || (c =? 12288))%N.

(** [s.replace(old, new)] for two one-character strings. *)
Definition str_replace (old new : N) (s : str) : str :=
  map (fun c => if (c =? old)%N then new else c) s.

(** [s.split()]: the maximal runs of non-whitespace characters, [cur]
    being the run read so far. *)
Fixpoint split_from (s : str) (cur : str) : list str :=
  match s with
  | [] => match cur with [] => [] | _ :: _ => [cur] end
  | c :: s' =>
      if isspace c
      then match cur with
           | [] => split_from s' []
           | _ :: _ => cur :: split_from s' []
           end
      else split_from s' (cur ++ [c])
  end.

Definition str_split (s : str) : list str := split_from s [].

Fixpoint lstrip (s : str) : str :=
  match s with
  | [] => []
  | c :: s' => if isspace c then lstrip s' else s
  end.

(** [s.strip()] *)
Definition strip (s : str) : str := rev (lstrip (rev (lstrip s))).

(** Truth value of a string: it is not empty. *)
Definition str_bool (s : str) : bool :=
  match s with [] => false | _ :: _ => true end.

(** [sep.join(parts)] *)
Fixpoint join (sep : str) (parts : list str) : str :=
  match parts with
  | [] => []
  | [t] => t
  | t :: rest => t ++ sep ++ join sep rest
  end.

(** [[f(x) for x in xs]] with an [f] that can raise: the first failure
    ends the comprehension. *)
Fixpoint comprehension {A B : Type} (f : A -> result B) (xs : list A) : result (list B) :=
  match xs with
  | [] => Ok []
  | x :: xs' =>
      y <- f x ;;
      ys <- comprehension f xs' ;;
      Ok (y :: ys)
  end.

(** A string free of whitespace. *)
Definition nospace (t : str) : Prop := Forall (fun c => isspace c = false) t.

(** [float(x)] on a string either returns a float or raises ValueError;
    the conversion itself, [float_of_str], is a parameter of the model. *)
Definition py_float (float_of_str : str -> option float) (x : str) : result value :=
  match float_of_str x with
  | Some f => Ok (VFloat f)
  | None => Raise ValueError
  end.

(** [DataParser.parse] *)
Definition parse (float_of_str : str -> option float) (data_input : str)
  : result (list value) :=
  let data_str := str_split (str_replace COMMA SPACE data_input) in
  data <- comprehension (py_float float_of_str)
            (filter (fun x => str_bool (strip x)) data_str) ;;
  match data with
  | [] => Raise ValueError
  | _ :: _ => Ok data
  end.

(** What [UIController.handle_test_execution] ends in: one of its three
    error messages, or the call of the presenter on a result. *)
Inductive outcome : Set :=
| AlphaRejected
| DataError
| UnexpectedError (e : exn)
| Presented (result : RunsTestResult) (data : list value).

(** The body of the [try] of [handle_test_execution], up to the call of
    the presenter; [None] is the early [return] after the message on the
    significance level. *)
Definition test_execution_body (float_of_str : str -> option float)
           (data_input alpha_raw : str)
  : result (option (RunsTestResult * list value)) :=
  alpha_input <- (if str_bool alpha_raw
                  then py_float float_of_str (str_replace COMMA DOT alpha_raw)
                  else Ok (VFloat (decimal 5 100))) ;;
  if negb (Py.ltb (VInt 0) alpha_input && Py.ltb alpha_input (VInt 1))
  then Ok None
  else
    data <- parse float_of_str data_input ;;
    result <- execute data alpha_input ;;
    Ok (Some (result, data)).

(** [handle_test_execution]: ValueError is reported as an error in the
    data, any other exception as an unexpected error. *)
Definition handle_test_execution (float_of_str : str -> option float)
           (data_input alpha_raw : str) : outcome :=
  match test_execution_body float_of_str data_input alpha_raw with
  | Ok None => AlphaRejected
  | Ok (Some (result, data)) => Presented result data
  | Raise ValueError => DataError
  | Raise e => UnexpectedError e
  end.

(** * Facts about the binary64 operations *)

Module SF.

(** ** Number of binary digits *)

Lemma digits2_pos_size (p : positive) : digits2_pos p = Pos.size p.
Proof. induction p; simpl; congruence. Qed.

Lemma Zdigits2_log2 (m : Z) : 0 < m -> Zdigits2 m = Z.log2 m + 1.
Proof.
  destruct m as [|p|p]; try lia. intros _. simpl.
  rewrite digits2_pos_size. destruct p; simpl; lia.
Qed.

Lemma Zdigits2_nonneg (m : Z) : 0 <= Zdigits2 m.
Proof. destruct m; simpl; lia. Qed.

Lemma Zdigits2_pos (m : Z) : 0 < m -> 0 < Zdigits2 m.
Proof. destruct m; simpl; lia. Qed.

Lemma Zdigits2_upper (m : Z) : 0 <= m -> m < 2 ^ Zdigits2 m.
Proof.
  intros H. destruct (Z.eq_dec m 0) as [->|Hm]; [reflexivity|].
  rewrite Zdigits2_log2 by lia.
  apply Z.log2_spec. lia.
Qed.

Lemma Zdigits2_lower (m : Z) : 0 < m -> 2 ^ (Zdigits2 m - 1) <= m.
Proof.
  intros H. rewrite Zdigits2_log2 by lia.
  replace (Z.log2 m + 1 - 1) with (Z.log2 m) by lia.
  apply Z.log2_spec. lia.
Qed.

Lemma Zdigits2_le_of_lt_pow2 (m k : Z) :
  0 <= m -> 0 <= k -> m < 2 ^ k -> Zdigits2 m <= k.
Proof.
  intros Hm Hk H. destruct (Z.eq_dec m 0) as [->|Hm0]; [simpl; lia|].
  rewrite Zdigits2_log2 by lia.
  apply Z.log2_lt_pow2 in H; lia.
Qed.

Lemma Zdigits2_succ_le (m : Z) : 0 <= m -> Zdigits2 (m + 1) <= Zdigits2 m + 1.
Proof.
  intros Hm. apply Zdigits2_le_of_lt_pow2; try lia.
  - pose proof (Zdigits2_nonneg m). lia.
  - pose proof (Zdigits2_upper m Hm).
    rewrite Z.pow_add_r by (try apply Zdigits2_nonneg; lia).
    lia.
Qed.

Lemma Zdigits2_div_pow2 (m k : Z) :
  0 <= m -> 0 <= k -> Zdigits2 (m / 2 ^ k) <= Z.max 0 (Zdigits2 m - k).
Proof.
  intros Hm Hk.
  assert (Hp : 0 < 2 ^ k) by (apply Z.pow_pos_nonneg; lia).
  pose proof (Zdigits2_upper m Hm) as Hu.
  pose proof (Zdigits2_nonneg m) as Hd.
  destruct (Z_lt_le_dec (Zdigits2 m) k) as [Hlt|Hle].
  - assert (m < 2 ^ k).
    { eapply Z.lt_le_trans; [exact Hu|]. apply Z.pow_le_mono_r; lia. }
    rewrite Z.div_small by lia. simpl. lia.
  - apply Zdigits2_le_of_lt_pow2.
    + apply Z.div_pos; lia.
    + lia.
    + rewrite Z.max_r by lia.
      apply Z.div_lt_upper_bound; [lia|].
      rewrite <- Z.pow_add_r by lia.
      replace (k + (Zdigits2 m - k)) with (Zdigits2 m) by lia. exact Hu.
Qed.

Lemma div_pow2_pos (m k : Z) :
  0 < m -> 0 <= k -> k < Zdigits2 m -> 0 < m / 2 ^ k.
Proof.
  intros Hm Hk Hlt.
  assert (Hp : 0 < 2 ^ k) by (apply Z.pow_pos_nonneg; lia).
  apply Z.div_str_pos. split; [lia|].
  eapply Z.le_trans; [|apply Zdigits2_lower; lia].
  apply Z.pow_le_mono_r; lia.
Qed.

(** ** Shifting and rounding *)

Lemma shr_1_m (r : shr_record) : 0 <= shr_m r -> shr_m (shr_1 r) = shr_m r / 2.
Proof.
  destruct r as [m r s]. simpl. intros Hm.
  rewrite <- Z.div2_div.
  destruct m as [|[p|p|]|p]; try reflexivity. lia.
Qed.

Lemma iter_shr_1_m (p : positive) :
  forall r, 0 <= shr_m r -> shr_m (iter_pos shr_1 p r) = shr_m r / 2 ^ Zpos p.
Proof.
  assert (Hpow : forall q : positive, 0 < 2 ^ Zpos q)
    by (intros q; apply Z.pow_pos_nonneg; lia).
  assert (Hnn : forall a b, 0 <= a -> 0 < b -> 0 <= a / b)
    by (intros a b Ha Hb; apply Z.div_pos; lia).
  induction p as [p IH|p IH|]; intros r Hr; simpl iter_pos.
  - pose proof (shr_1_m r Hr) as H1.
    assert (H1' : 0 <= shr_m (shr_1 r)) by (rewrite H1; apply Hnn; lia).
    pose proof (IH _ H1') as H2.
    assert (H2' : 0 <= shr_m (iter_pos shr_1 p (shr_1 r)))
      by (rewrite H2; apply Hnn; auto).
    rewrite (IH _ H2'), H2, H1.
    rewrite !Z.div_div by (try apply Hpow; lia).
    f_equal. rewrite Pos2Z.inj_xI.
    replace (2 * Zpos p + 1) with (1 + Zpos p + Zpos p) by lia.
    rewrite !Z.pow_add_r by lia. change (2 ^ 1) with 2. ring.
  - pose proof (IH _ Hr) as H2.
    assert (H2' : 0 <= shr_m (iter_pos shr_1 p r))
      by (rewrite H2; apply Hnn; auto).
    rewrite (IH _ H2'), H2.
    rewrite Z.div_div by (try apply Hpow; lia).
    f_equal. rewrite Pos2Z.inj_xO.
    rewrite <- Z.pow_add_r by lia. f_equal. lia.
  - rewrite shr_1_m by assumption. reflexivity.
Qed.

Lemma fexp_eq (x : Z) : fexp prec emax x = Z.max (x - 53) (-1074).
Proof. reflexivity. Qed.

Lemma shift_nonneg (m e : Z) : 0 <= shift m e.
Proof. unfold shift. lia. Qed.

Lemma shr_record_of_loc_m (m : Z) (l : location) : shr_m (shr_record_of_loc m l) = m.
Proof. destruct l as [|[]]; reflexivity. Qed.

Lemma shr_fexp_spec (m e : Z) (l : location) :
  0 <= m ->
  shr_m (fst (shr_fexp prec emax m e l)) = m / 2 ^ shift m e /\
  snd (shr_fexp prec emax m e l) = e + shift m e.
Proof.
  intros Hm. unfold shr_fexp, shift, shr.
  destruct (fexp prec emax (Zdigits2 m + e) - e) as [|p|p] eqn:E; simpl fst; simpl snd.
  - rewrite shr_record_of_loc_m, Z.div_1_r. split; lia.
  - rewrite iter_shr_1_m by (rewrite shr_record_of_loc_m; exact Hm).
    rewrite shr_record_of_loc_m. rewrite Z.max_r by lia. split; reflexivity.
  - rewrite shr_record_of_loc_m. rewrite Z.max_l by lia.
    rewrite Z.div_1_r. split; lia.
Qed.

Lemma round_nearest_even_cases (m : Z) (l : location) :
  round_nearest_even m l = m \/ round_nearest_even m l = m + 1.
Proof.
  destruct l as [|[]]; simpl; auto. destruct (Z.even m); auto.
Qed.

(** [binary_round_aux] in closed form: truncate, round, renormalise. *)
Lemma binary_round_aux_spec (sx : bool) (m e : Z) (l : location) :
  0 <= m ->
  exists m2 : Z,
    (m2 = m / 2 ^ shift m e \/ m2 = m / 2 ^ shift m e + 1) /\
    binary_round_aux prec emax sx m e l =
      pack sx (m2 / 2 ^ shift m2 (e + shift m e))
              (e + shift m e + shift m2 (e + shift m e)).
Proof.
  intros Hm. unfold binary_round_aux.
  destruct (shr_fexp_spec m e l Hm) as [H1 H2].
  destruct (shr_fexp prec emax m e l) as [mrs1 e1]. simpl in H1, H2. subst e1.
  set (m2 := round_nearest_even (shr_m mrs1) (loc_of_shr_record mrs1)).
  assert (Hm1 : 0 <= m / 2 ^ shift m e).
  { apply Z.div_pos; [lia|]. apply Z.pow_pos_nonneg; [lia|apply shift_nonneg]. }
  assert (Hc : m2 = m / 2 ^ shift m e \/ m2 = m / 2 ^ shift m e + 1).
  { unfold m2. rewrite <- H1. apply round_nearest_even_cases. }
  assert (Hm2 : 0 <= m2) by lia.
  destruct (shr_fexp_spec m2 (e + shift m e) loc_Exact Hm2) as [H3 H4].
  destruct (shr_fexp prec emax m2 (e + shift m e) loc_Exact) as [mrs2 e2].
  simpl in H3, H4. subst e2. exists m2. split; [exact Hc|].
  rewrite H3. reflexivity.
Qed.

Lemma pack_has_sign (sx : bool) (m e : Z) : 0 <= m -> has_sign sx (pack sx m e).
Proof.
  intros H. unfold pack.
  destruct m as [|p|p]; [exact eq_refl| |lia].
  destruct (e <=? emax - prec); exact eq_refl.
Qed.

Lemma binary_round_aux_sign (sx : bool) (m e : Z) (l : location) :
  0 <= m -> has_sign sx (binary_round_aux prec emax sx m e l).
Proof.
  intros Hm. destruct (binary_round_aux_spec sx m e l Hm) as (m2 & Hc & ->).
  apply pack_has_sign. apply Z.div_pos.
  - assert (0 <= m / 2 ^ shift m e); [|lia].
    apply Z.div_pos; [lia|]. apply Z.pow_pos_nonneg; [lia|apply shift_nonneg].
  - apply Z.pow_pos_nonneg; [lia|apply shift_nonneg].
Qed.

Lemma pow2_pos (k : Z) : 0 <= k -> 0 < 2 ^ k.
Proof. intros; apply Z.pow_pos_nonneg; lia. Qed.

(** A positive mantissa at an exponent no smaller than [emin] is never
    rounded to zero, and rounding never lowers the exponent. *)
Lemma binary_round_aux_pos (sx : bool) (m e : Z) (l : location) :
  0 < m -> -1074 <= e ->
  binary_round_aux prec emax sx m e l = S754_infinity sx \/
  exists m' e', binary_round_aux prec emax sx m e l = S754_finite sx m' e' /\ e <= e'.
Proof.
  intros Hm He.
  destruct (binary_round_aux_spec sx m e l) as (m2 & Hc & ->); [lia|].
  pose proof (shift_nonneg m e) as Hs1.
  pose proof (Zdigits2_pos m Hm) as Hd.
  assert (Hlt1 : shift m e < Zdigits2 m)
    by (unfold shift; rewrite fexp_eq; lia).
  pose proof (div_pow2_pos m (shift m e) Hm Hs1 Hlt1) as Hm1.
  assert (Hm2 : 0 < m2) by lia.
  set (e1 := e + shift m e) in *.
  pose proof (shift_nonneg m2 e1) as Hs2.
  pose proof (Zdigits2_pos m2 Hm2) as Hd2.
  assert (Hlt2 : shift m2 e1 < Zdigits2 m2)
    by (unfold shift; rewrite fexp_eq; lia).
  pose proof (div_pow2_pos m2 (shift m2 e1) Hm2 Hs2 Hlt2) as Hm3.
  unfold pack. destruct (m2 / 2 ^ shift m2 e1) as [|p|p]; try lia.
  destruct (_ <=? _); [right|left; reflexivity].
  eexists _, _. split; [reflexivity|lia].
Qed.

(** A mantissa of magnitude below [2 ^ K], [K < emax], does not overflow. *)
Lemma binary_round_aux_finite (sx : bool) (m e K : Z) (l : location) :
  0 <= m -> Zdigits2 m + e <= K -> K < 1024 -> e <= 971 ->
  binary_round_aux prec emax sx m e l = S754_zero sx \/
  exists m' e', binary_round_aux prec emax sx m e l = S754_finite sx m' e'.
Proof.
  intros Hm HK HK' He.
  destruct (binary_round_aux_spec sx m e l Hm) as (m2 & Hc & ->).
  pose proof (shift_nonneg m e) as Hs1.
  pose proof (Zdigits2_div_pow2 m (shift m e) Hm Hs1) as Hd1.
  assert (Hm1 : 0 <= m / 2 ^ shift m e)
    by (apply Z.div_pos; [lia|apply pow2_pos; lia]).
  pose proof (Zdigits2_succ_le _ Hm1) as Hsucc.
  assert (Hd2 : Zdigits2 m2 <= Z.max 0 (Zdigits2 m - shift m e) + 1)
    by (destruct Hc as [-> | ->]; lia).
  assert (He3 : e + shift m e + shift m2 (e + shift m e) <= 971).
  { revert Hd2. unfold shift. rewrite !fexp_eq.
    generalize (Zdigits2 m2). pose proof (Zdigits2_nonneg m). lia. }
  unfold pack. destruct (m2 / 2 ^ shift m2 (e + shift m e)) as [|p|p] eqn:E.
  - left; reflexivity.
  - right. change (emax - prec) with 971.
    destruct (Z.leb_spec (e + shift m e + shift m2 (e + shift m e)) 971); [|lia].
    eexists _, _; reflexivity.
  - exfalso. assert (0 <= m2 / 2 ^ shift m2 (e + shift m e)); [|lia].
    apply Z.div_pos; [lia|apply pow2_pos, shift_nonneg].
Qed.

(** ** Conversion of an int *)

Lemma shl_align_spec (mx : positive) (ex ex' : Z) :
  Zpos (fst (shl_align mx ex ex')) = Zpos mx * 2 ^ (ex - snd (shl_align mx ex ex')) /\
  snd (shl_align mx ex ex') = Z.min ex ex'.
Proof.
  unfold shl_align. destruct (ex' - ex) as [|d|d] eqn:E; simpl fst; simpl snd.
  - rewrite Z.sub_diag. split; lia.
  - rewrite Z.sub_diag. split; lia.
  - replace (ex - ex') with (Zpos d) by lia. split; [|lia].
    change (Pos.iter xO mx d) with (shift_pos d mx).
    rewrite shift_pos_correct, Z.pow_pos_fold. ring.
Qed.

Lemma Zdigits2_mul_pow2 (m k : Z) :
  0 < m -> 0 <= k -> Zdigits2 (m * 2 ^ k) = Zdigits2 m + k.
Proof.
  intros Hm Hk. pose proof (pow2_pos k Hk).
  rewrite !Zdigits2_log2 by nia.
  rewrite Z.log2_mul_pow2 by lia. lia.
Qed.

Lemma binary_round_pos (sx : bool) (p : positive) :
  binary_round prec emax sx p 0 = S754_infinity sx \/
  exists m e, binary_round prec emax sx p 0 = S754_finite sx m e /\ -1074 <= e.
Proof.
  unfold binary_round.
  destruct (shl_align_spec p 0 (fexp prec emax (Zpos (digits2_pos p) + 0))) as [H1 H2].
  destruct (shl_align p 0 _) as [mz ez]. cbn [fst snd] in H1, H2.
  rewrite fexp_eq in H2.
  destruct (binary_round_aux_pos sx (Zpos mz) ez loc_Exact) as [H|(m & e & H & He)];
    try lia; [left; exact H|right].
  exists m, e. split; [exact H|lia].
Qed.

Lemma binary_round_finite (sx : bool) (p : positive) :
  Zpos p < 2 ^ 1023 ->
  exists m e, binary_round prec emax sx p 0 = S754_finite sx m e /\ -1074 <= e.
Proof.
  intros Hp. unfold binary_round.
  destruct (shl_align_spec p 0 (fexp prec emax (Zpos (digits2_pos p) + 0))) as [H1 H2].
  destruct (shl_align p 0 _) as [mz ez]. cbn [fst snd] in H1, H2.
  rewrite fexp_eq in H2.
  assert (Hd : Zdigits2 (Zpos p) <= 1023)
    by (apply Zdigits2_le_of_lt_pow2; lia).
  assert (Hdz : Zdigits2 (Zpos mz) + ez = Zdigits2 (Zpos p)).
  { rewrite H1, Zdigits2_mul_pow2 by lia. lia. }
  destruct (binary_round_aux_pos sx (Zpos mz) ez loc_Exact) as [H|(m & e & H & He)];
    try lia.
  - destruct (binary_round_aux_finite sx (Zpos mz) ez 1023 loc_Exact)
      as [H'|(m & e & H')]; try lia; congruence.
  - exists m, e. split; [exact H|lia].
Qed.

(** Below [2 ^ 1023] in magnitude, [float(z)] does not raise. *)
Lemma float_of_int_bounded (z : Z) :
  Z.abs z < 2 ^ 1023 ->
  float_of_int z = Ok (binary_normalize prec emax z 0 false).
Proof.
  intros Hz. unfold float_of_int, binary_normalize.
  destruct z as [|p|p]; [reflexivity| |].
  - destruct (binary_round_finite false p) as (m & e & -> & _); [lia|reflexivity].
  - destruct (binary_round_finite true p) as (m & e & -> & _); [lia|reflexivity].
Qed.

(** A positive int converts to a positive finite float. *)
Lemma float_of_int_pos (z : Z) (f : float) :
  0 < z -> float_of_int z = Ok f ->
  exists m e, f = S754_finite false m e /\ -1074 <= e.
Proof.
  intros Hz. unfold float_of_int, binary_normalize.
  destruct z as [|p|p]; try lia.
  destruct (binary_round_pos false p) as [-> | (m & e & -> & He)].
  - discriminate.
  - intros [= <-]. eauto.
Qed.

(** ** Division and square root *)

Lemma SFdiv_core_binary_spec (m1 e1 m2 e2 : Z) :
  0 < m1 -> 0 < m2 ->
  exists q e' l,
    SFdiv_core_binary prec emax m1 e1 m2 e2 = (q, e', l) /\
    e' <= e1 - e2 /\ q = m1 * 2 ^ (e1 - e2 - e') / m2.
Proof.
  intros H1 H2. unfold SFdiv_core_binary.
  set (e' := Z.min _ (e1 - e2)).
  assert (He' : e' <= e1 - e2) by (unfold e'; lia).
  set (m' := match e1 - e2 - e' with Z0 => m1 | Zpos _ => _ | Zneg _ => 0 end).
  assert (Hm' : m' = m1 * 2 ^ (e1 - e2 - e')).
  { unfold m'. destruct (e1 - e2 - e') as [|s|s] eqn:E; try lia.
    rewrite Z.shiftl_mul_pow2 by lia. reflexivity. }
  destruct (Z.div_eucl m' m2) as [q r] eqn:E.
  exists q, e', (new_location m2 r). repeat split; try assumption.
  rewrite <- Hm'. unfold Z.div. rewrite E. reflexivity.
Qed.

Lemma SFsqrt_core_binary_spec (m e : Z) :
  0 < m -> -1074 <= e ->
  exists q e' l,
    SFsqrt_core_binary prec emax m e = (q, e', l) /\ 0 < q /\ -1074 <= e'.
Proof.
  intros Hm He. unfold SFsqrt_core_binary.
  set (e' := Z.min _ (Z.div2 e)).
  pose proof (Z.div2_div e) as Hdiv.
  pose proof (Z.mul_div_le e 2 ltac:(lia)) as Hle.
  pose proof (Z.mul_succ_div_gt e 2 ltac:(lia)) as Hgt.
  assert (He' : e' <= e / 2) by (unfold e'; lia).
  assert (He'' : -1074 <= e') by (unfold e'; rewrite fexp_eq; lia).
  set (m' := match e - 2 * e' with Z0 => m | Zpos _ => _ | Zneg _ => 0 end).
  assert (Hm' : m <= m').
  { unfold m'. destruct (e - 2 * e') as [|s|s] eqn:E; try lia.
    rewrite Z.shiftl_mul_pow2 by lia. pose proof (pow2_pos (Zpos s)). nia. }
  pose proof (Z.sqrtrem_sqrt m') as Hq.
  destruct (Z.sqrtrem m') as [q r]. simpl in Hq. subst q.
  eexists _, _, _. split; [reflexivity|]. split; [|exact He''].
  apply Z.sqrt_pos. lia.
Qed.

(** The square root of a positive float is not zero (and not NaN). *)
Lemma SFsqrt_pos (m : positive) (e : Z) :
  -1074 <= e ->
  is_zero (SFsqrt prec emax (S754_finite false m e)) = false /\
  is_nan (SFsqrt prec emax (S754_finite false m e)) = false.
Proof.
  intros He. unfold SFsqrt.
  destruct (SFsqrt_core_binary_spec (Zpos m) e) as (q & e' & l & -> & Hq & He');
    try lia.
  destruct (binary_round_aux_pos false q e' l Hq He') as [-> | (m' & e'' & -> & _)];
    split; reflexivity.
Qed.

(** ** Comparison is comparison of exact values *)

Lemma mul_compare_mono_r (p n m : Z) : 0 < p -> (n * p ?= m * p) = (n ?= m).
Proof.
  intros Hp. destruct (Z.compare_spec n m) as [->|H|H].
  - apply Z.compare_refl.
  - apply Z.compare_lt_iff. nia.
  - apply Z.compare_gt_iff. nia.
Qed.

Lemma bounded_inv (m : positive) (e : Z) :
  bounded prec emax m e = true ->
  Z.max (Zdigits2 (Zpos m) + e - 53) (-1074) = e /\ e <= 971.
Proof.
  unfold bounded, canonical_mantissa. rewrite fexp_eq.
  intros H. apply andb_true_iff in H. destruct H as [H1 H2].
  apply Z.eqb_eq in H1. apply Z.leb_le in H2.
  change (emax - prec) with 971 in H2. simpl Zdigits2. lia.
Qed.

Lemma bounded_lt (m1 m2 : positive) (e1 e2 : Z) :
  bounded prec emax m1 e1 = true -> bounded prec emax m2 e2 = true ->
  e1 < e2 ->
  Zpos m1 * 2 ^ (e1 + 1074) < Zpos m2 * 2 ^ (e2 + 1074).
Proof.
  intros H1 H2 Hlt.
  apply bounded_inv in H1. apply bounded_inv in H2.
  pose proof (Zdigits2_upper (Zpos m1) ltac:(lia)) as Hu.
  pose proof (Zdigits2_lower (Zpos m2) ltac:(lia)) as Hl.
  assert (Hd1 : Zdigits2 (Zpos m1) <= 53) by lia.
  assert (Hd2 : Zdigits2 (Zpos m2) = 53) by lia.
  rewrite Hd2 in Hl. change (2 ^ (53 - 1)) with (2 ^ 52) in Hl.
  assert (Hm1 : Zpos m1 < 2 ^ 53).
  { eapply Z.lt_le_trans; [exact Hu|]. apply Z.pow_le_mono_r; lia. }
  replace (e2 + 1074) with ((e2 - e1 - 1) + 1 + (e1 + 1074)) by lia.
  rewrite (Z.pow_add_r 2 (e2 - e1 - 1 + 1) (e1 + 1074)) by lia.
  rewrite (Z.pow_add_r 2 (e2 - e1 - 1) 1) by lia. change (2 ^ 1) with 2.
  pose proof (pow2_pos (e2 - e1 - 1) ltac:(lia)).
  pose proof (pow2_pos (e1 + 1074) ltac:(lia)).
  change (2 ^ 53) with (2 ^ 52 * 2) in Hm1.
  generalize dependent (2 ^ 52). intros c Hl Hm1.
  generalize dependent (2 ^ (e2 - e1 - 1)). intros a Ha.
  generalize dependent (2 ^ (e1 + 1074)). intros b Hb.
  assert (Zpos m1 * b < c * 2 * b) by nia.
  assert (c * 2 * b <= Zpos m2 * 2 * b) by nia.
  assert (Zpos m2 * 2 * b <= Zpos m2 * (a * 2 * b)) by nia.
  lia.
Qed.

Lemma compare_bounded (m1 m2 : positive) (e1 e2 : Z) :
  bounded prec emax m1 e1 = true -> bounded prec emax m2 e2 = true ->
  match e1 ?= e2 with
  | Lt => Lt
  | Gt => Gt
  | Eq => Pos.compare_cont Eq m1 m2
  end = (Zpos m1 * 2 ^ (e1 + 1074) ?= Zpos m2 * 2 ^ (e2 + 1074)).
Proof.
  intros H1 H2. destruct (Z.compare_spec e1 e2) as [->|Hlt|Hgt].
  - pose proof (bounded_inv _ _ H2) as [He _].
    rewrite mul_compare_mono_r by (apply pow2_pos; lia).
    reflexivity.
  - symmetry. apply Z.compare_lt_iff. apply bounded_lt; assumption.
  - symmetry. apply Z.compare_gt_iff. apply bounded_lt; assumption.
Qed.

Lemma SFcompare_exact (x y : float) :
  valid (VFloat x) = true -> valid (VFloat y) = true ->
  is_finite (VFloat x) = true -> is_finite (VFloat y) = true ->
  SFcompare x y = Some (scaled_float x ?= scaled_float y).
Proof.
  destruct x as [sx|sx| |sx mx ex]; try discriminate;
  destruct y as [sy|sy| |sy my ey]; try discriminate;
  simpl valid; simpl scaled_float; intros Hx Hy _ _.
  - reflexivity.
  - pose proof (bounded_inv _ _ Hy) as [He _].
    pose proof (pow2_pos (ey + 1074) ltac:(lia)).
    simpl SFcompare. f_equal. symmetry.
    destruct sy; simpl cond_Zopp.
    + apply Z.compare_gt_iff. nia.
    + apply Z.compare_lt_iff. nia.
  - pose proof (bounded_inv _ _ Hx) as [He _].
    pose proof (pow2_pos (ex + 1074) ltac:(lia)).
    simpl SFcompare. f_equal. symmetry.
    destruct sx; simpl cond_Zopp.
    + apply Z.compare_lt_iff. nia.
    + apply Z.compare_gt_iff. nia.
  - pose proof (bounded_inv _ _ Hx) as [Hex _].
    pose proof (bounded_inv _ _ Hy) as [Hey _].
    pose proof (pow2_pos (ex + 1074) ltac:(lia)).
    pose proof (pow2_pos (ey + 1074) ltac:(lia)).
    simpl SFcompare. f_equal.
    destruct sx, sy; simpl cond_Zopp.
    + rewrite <- !Pos2Z.opp_pos, !Z.mul_opp_l, Z.compare_opp.
      rewrite <- (compare_bounded my mx ey ex Hy Hx).
      rewrite (Z.compare_antisym ey ex).
      destruct (ey ?= ex); simpl; try reflexivity.
      apply (Pos.compare_cont_antisym mx my Eq).
    + symmetry. apply Z.compare_lt_iff. nia.
    + symmetry. apply Z.compare_gt_iff. nia.
    + apply compare_bounded; assumption.
Qed.

Lemma Zcompare_float_exact (z : Z) (f : float) :
  valid (VFloat f) = true -> is_finite (VFloat f) = true ->
  Zcompare_float z f = Some (z * 2 ^ 1074 ?= scaled_float f).
Proof.
  destruct f as [s|s| |s m e]; try discriminate; simpl valid; intros Hf _;
    simpl Zcompare_float; simpl scaled_float; f_equal.
  - change 0 with (0 * 2 ^ 1074) at 2.
    rewrite mul_compare_mono_r by (apply pow2_pos; lia). reflexivity.
  - pose proof (bounded_inv _ _ Hf) as [He _].
    set (k := 1074 - Z.max 0 (- e)).
    rewrite <- (mul_compare_mono_r (2 ^ k)) by (apply pow2_pos; unfold k; lia).
    rewrite <- !Z.mul_assoc, <- !Z.pow_add_r by (unfold k; lia).
    f_equal; f_equal; f_equal; unfold k; lia.
Qed.

Theorem compare_exact (a b : value) :
  valid a = true -> valid b = true ->
  is_finite a = true -> is_finite b = true ->
  Py.compare a b = Some (scaled a ?= scaled b).
Proof.
  destruct a as [x|x], b as [y|y]; intros Va Vb Fa Fb;
    cbn [Py.compare scaled].
  - rewrite mul_compare_mono_r by (apply pow2_pos; lia). reflexivity.
  - apply Zcompare_float_exact; assumption.
  - rewrite Zcompare_float_exact by assumption. cbn [option_map].
    rewrite <- Z.compare_antisym. reflexivity.
  - apply SFcompare_exact; assumption.
Qed.

Lemma leb_exact (a b : value) :
  valid a = true -> valid b = true ->
  is_finite a = true -> is_finite b = true ->
  Py.leb a b = true <-> scaled a <= scaled b.
Proof.
  intros Va Vb Fa Fb. unfold Py.leb.
  rewrite (compare_exact a b Va Vb Fa Fb).
  destruct (Z.compare_spec (scaled a) (scaled b)); split; intros; try lia;
    try reflexivity; discriminate.
Qed.

Lemma scaled_abs (v : value) : scaled (Py.abs v) = Z.abs (scaled v).
Proof.
  destruct v as [z|[s|s| |s m e]]; cbn [Py.abs SFabs scaled scaled_float];
    try reflexivity.
  - rewrite Z.abs_mul. f_equal.
  - rewrite Z.abs_mul.
    rewrite (Z.abs_eq (2 ^ (e + 1074))) by (apply Z.pow_nonneg; lia).
    destruct s; reflexivity.
Qed.

Lemma valid_abs (v : value) : valid (Py.abs v) = valid v.
Proof. destruct v as [z|[s|s| |s m e]]; reflexivity. Qed.

Lemma is_finite_abs (v : value) : is_finite (Py.abs v) = is_finite v.
Proof. destruct v as [z|[s|s| |s m e]]; reflexivity. Qed.

End SF.

(** * The sequence encoder *)

Lemma ltb_exact (a b : value) :
  valid a = true -> valid b = true ->
  is_finite a = true -> is_finite b = true ->
  Py.ltb a b = true <-> scaled a < scaled b.
Proof.
  intros Va Vb Fa Fb. unfold Py.ltb.
  rewrite (SF.compare_exact a b Va Vb Fa Fb).
  destruct (Z.compare_spec (scaled a) (scaled b)); split; intros; try lia;
    try reflexivity; discriminate.
Qed.

Lemma Qlt_to_Q (a b : value) : (to_Q a < to_Q b)%Q <-> scaled a < scaled b.
Proof.
  unfold to_Q, Qlt. cbn [Qnum Qden].
  split; intros H; [|apply Z.mul_lt_mono_pos_r; [reflexivity|exact H]].
  apply Z.mul_lt_mono_pos_r in H; [exact H|reflexivity].
Qed.

Lemma Qle_to_Q (a b : value) : (to_Q a <= to_Q b)%Q <-> scaled a <= scaled b.
Proof.
  unfold to_Q, Qle. cbn [Qnum Qden].
  split; intros H; [|apply Z.mul_le_mono_pos_r; [reflexivity|exact H]].
  apply Z.mul_le_mono_pos_r in H; [exact H|reflexivity].
Qed.

Lemma THRESHOLD_is_half : (to_Q (VFloat THRESHOLD) == 1 # 2)%Q.
Proof. vm_compute. reflexivity. Qed.

(** C6. The encoder returns a sequence of the length of its input whose
    i-th symbol is 0 when the i-th input is strictly less than 0.5 (Python's
    [<], which on genuine finite numbers is [<] on their exact values) and 1
    otherwise; the value 0.5 itself is encoded as 1. *)
Theorem generate_spec (data : list value) :
  length (generate data) = length data /\
  (forall i v, nth_error data i = Some v ->
     nth_error (generate data) i =
       Some (if Py.ltb v (VFloat THRESHOLD) then 0 else 1)) /\
  (forall i v, nth_error data i = Some v ->
     valid v = true -> is_finite v = true ->
     ((to_Q v < 1 # 2)%Q -> nth_error (generate data) i = Some 0) /\
     ((1 # 2 <= to_Q v)%Q -> nth_error (generate data) i = Some 1)) /\
  generate [VFloat (decimal 5 10)] = [1].
Proof.
  assert (Hnth : forall i v, nth_error data i = Some v ->
     nth_error (generate data) i =
       Some (if Py.ltb v (VFloat THRESHOLD) then 0 else 1)).
  { intros i v H. unfold generate. rewrite nth_error_map, H. reflexivity. }
  split; [unfold generate; apply length_map|].
  split; [exact Hnth|].
  split; [|vm_compute; reflexivity].
  intros i v H H0 H1. split.
  - intros Hlt. rewrite (Hnth i v H).
    rewrite <- THRESHOLD_is_half in Hlt.
    apply Qlt_to_Q in Hlt.
    apply (ltb_exact v (VFloat THRESHOLD) H0 eq_refl H1 eq_refl) in Hlt.
    rewrite Hlt. reflexivity.
  - intros Hle. rewrite (Hnth i v H).
    destruct (Py.ltb v (VFloat THRESHOLD)) eqn:E; [|reflexivity].
    apply (ltb_exact v (VFloat THRESHOLD) H0 eq_refl H1 eq_refl) in E.
    apply Qlt_to_Q in E. rewrite THRESHOLD_is_half in E.
    exfalso. apply (Qlt_not_le _ _ E Hle).
Qed.

Lemma generate_spec_witness :
  nth_error (generate [VFloat (decimal 3 10); VFloat (decimal 5 10)]) 0 = Some 0 /\
  nth_error (generate [VFloat (decimal 3 10); VFloat (decimal 5 10)]) 1 = Some 1.
Proof.
  pose (data := [VFloat (decimal 3 10); VFloat (decimal 5 10)]).
  destruct (generate_spec data) as (_ & _ & H & _).
  split.
  - apply (H 0%nat (VFloat (decimal 3 10)) eq_refl eq_refl eq_refl). reflexivity.
  - apply (H 1%nat (VFloat (decimal 5 10)) eq_refl eq_refl eq_refl).
    vm_compute. discriminate.
Defined.

(** * The run counter *)

Section RunsCounter.

Lemma changes_bounds (l : list Z) :
  forall prev, 0 <= changes prev l <= Z.of_nat (length l).
Proof.
  induction l as [|y l IH]; intros prev; simpl changes.
  - simpl. lia.
  - specialize (IH y). rewrite length_cons, Nat2Z.inj_succ.
    destruct (negb (y =? prev)); lia.
Qed.

(** The loop of [count], started at index [length pre + 1] with the
    counter at [acc], adds the changes of the rest of the sequence. *)
Lemma count_loop (xs : list Z) :
  forall (pre : list Z) (x acc : Z),
    fold_left (count_step (pre ++ x :: xs))
              (seq (length pre + 1) (length xs)) acc
    = acc + changes x xs.
Proof.
  induction xs as [|y ys IH]; intros pre x acc.
  - simpl. lia.
  - cbn [length seq fold_left changes].
    assert (Hstep : count_step (pre ++ x :: y :: ys) acc (length pre + 1)
                    = acc + (if negb (y =? x) then 1 else 0)).
    { unfold count_step.
      replace (length pre + 1 - 1)%nat with (length pre) by lia.
      rewrite nth_middle.
      replace (pre ++ x :: y :: ys) with ((pre ++ [x]) ++ y :: ys)
        by (rewrite <- app_assoc; reflexivity).
      replace (length pre + 1)%nat with (length (pre ++ [x]))
        by (rewrite length_app; reflexivity).
      rewrite nth_middle.
      destruct (negb (y =? x)); lia. }
    rewrite Hstep.
    replace (pre ++ x :: y :: ys) with ((pre ++ [x]) ++ y :: ys)
      by (rewrite <- app_assoc; reflexivity).
    replace (S (length pre + 1)) with (length (pre ++ [x]) + 1)%nat
      by (rewrite length_app; simpl; lia).
    rewrite IH. lia.
Qed.

Lemma count_cons (x : Z) (xs : list Z) : count (x :: xs) = 1 + changes x xs.
Proof.
  unfold count. cbn [length].
  replace (S (length xs) - 1)%nat with (length xs) by lia.
  apply (count_loop xs [] x 1).
Qed.

Lemma list_count_binary (l : list Z) :
  binary l -> list_count 0 l + list_count 1 l = Z.of_nat (length l).
Proof.
  unfold list_count. induction 1 as [|x l Hx Hl IH]; [reflexivity|].
  destruct Hx as [-> | ->]; simpl filter; rewrite !length_cons; lia.
Qed.

End RunsCounter.

(** C7. On a binary sequence of length n, [count_values] returns (n0, n1)
    with n0 + n1 = n, and [count] returns c0 with 1 <= c0 <= n when n >= 1
    and c0 = 0 exactly when n = 0. *)
Theorem runs_counter_invariant (sequence : list Z) :
  binary sequence ->
  fst (count_values sequence) + snd (count_values sequence)
    = Z.of_nat (length sequence) /\
  (1 <= Z.of_nat (length sequence) ->
     1 <= count sequence <= Z.of_nat (length sequence)) /\
  (count sequence = 0 <-> Z.of_nat (length sequence) = 0).
Proof.
  intros Hb. split; [apply list_count_binary; exact Hb|].
  destruct sequence as [|x xs].
  - simpl. split; [lia|]. split; reflexivity.
  - rewrite count_cons. pose proof (changes_bounds xs x) as H.
    rewrite length_cons, Nat2Z.inj_succ. split; [lia|]. split; lia.
Qed.

Lemma runs_counter_invariant_witness :
  fst (count_values [0; 0; 1; 0]) + snd (count_values [0; 0; 1; 0]) = 4 /\
  1 <= count [0; 0; 1; 0] <= 4.
Proof.
  assert (Hb : binary [0; 0; 1; 0]) by (repeat constructor; auto).
  destruct (runs_counter_invariant [0; 0; 1; 0] Hb) as (H1 & H2 & _).
  split; [exact H1|]. apply H2. simpl. lia.
Defined.

(** * The critical value provider *)

Lemma get_critical_value_eq (alpha : value) :
  get_critical_value alpha =
    Ok (VFloat (if Py.eqb alpha (VFloat (decimal 1 100)) then decimal 2576 1000
                else if Py.eqb alpha (VFloat (decimal 5 100)) then decimal 196 100
                else if Py.eqb alpha (VFloat (decimal 10 100)) then decimal 1645 1000
                else decimal 196 100)).
Proof.
  unfold get_critical_value.
  change (dict_getitem Z_TABLE (VFloat DEFAULT_ALPHA)) with (Ok (decimal 196 100)).
  cbn [Py.bind]. unfold dict_get, Z_TABLE. cbn [dict_lookup].
  destruct (Py.eqb alpha (VFloat (decimal 1 100))); [reflexivity|].
  destruct (Py.eqb alpha (VFloat (decimal 5 100))); [reflexivity|].
  destruct (Py.eqb alpha (VFloat (decimal 10 100))); reflexivity.
Qed.

(** C2. The provider maps 0.01 to 2.576, 0.05 to 1.96 and 0.10 to 1.645,
    and every significance level equal to none of the three keys, 0.03 among
    them, to the 0.05 entry 1.96; it never raises. *)
Theorem get_critical_value_table :
  get_critical_value (VFloat (decimal 1 100)) = Ok (VFloat (decimal 2576 1000)) /\
  get_critical_value (VFloat (decimal 5 100)) = Ok (VFloat (decimal 196 100)) /\
  get_critical_value (VFloat (decimal 10 100)) = Ok (VFloat (decimal 1645 1000)) /\
  (forall alpha : value,
     Py.eqb alpha (VFloat (decimal 1 100)) = false ->
     Py.eqb alpha (VFloat (decimal 5 100)) = false ->
     Py.eqb alpha (VFloat (decimal 10 100)) = false ->
     get_critical_value alpha = Ok (VFloat (decimal 196 100))) /\
  get_critical_value (VFloat (decimal 3 100)) = Ok (VFloat (decimal 196 100)).
Proof.
  split; [vm_compute; reflexivity|].
  split; [vm_compute; reflexivity|].
  split; [vm_compute; reflexivity|].
  split; [|vm_compute; reflexivity].
  intros alpha H1 H2 H3. rewrite get_critical_value_eq, H1, H2, H3. reflexivity.
Qed.

Lemma get_critical_value_table_witness :
  get_critical_value (VFloat (decimal 2 100)) = Ok (VFloat (decimal 196 100)).
Proof.
  destruct get_critical_value_table as (_ & _ & _ & H & _).
  apply H; reflexivity.
Defined.

(** * The orchestrator on the empty sample *)

(** C1, as the code has it.  On the empty sample [execute] produces no
    result record: it raises ZeroDivisionError, and it does so while
    computing the first statistic, the expected number of runs, whose
    division by n = 0 is not guarded. *)
Theorem execute_empty_raises (alpha : value) :
  calculate_expected_runs (VInt 0) (VInt 0) (VInt 0) = Raise ZeroDivisionError /\
  execute [] alpha = Raise ZeroDivisionError.
Proof. split; reflexivity. Qed.

(** C1, as the specification states it, fails: the error on the empty
    sample is not InvalidInputError. *)
Lemma empty_sample_error_class :
  execute [] (VFloat (decimal 5 100)) = Raise ZeroDivisionError /\
  execute [] (VFloat (decimal 5 100)) <> Raise InvalidInputError.
Proof. split; [reflexivity|discriminate]. Qed.

(** * The end-to-end scenario *)

(** C5. On [0.1, 0.9, 0.2, 0.8, 0.3] at the 0.05 level [execute] returns
    the sequence [0,1,0,1,0], c0 = 5, n0 = 3, n1 = 2, n = 5, the doubles 2.9
    for the expected runs, 0.84 for the variance and 1.96 for the critical
    value, a statistic between 2.291 and 2.292, and rejects independence
    since its magnitude exceeds the critical value. *)
Theorem execute_sample5 :
  exists r : RunsTestResult,
    execute sample5 (VFloat (decimal 5 100)) = Ok r /\
    sequence r = [0; 1; 0; 1; 0] /\
    c0 r = 5 /\ n0 r = 3 /\ n1 r = 2 /\ n r = 5 /\
    mu_c0 r = VFloat (decimal 29 10) /\
    variance r = VFloat (decimal 84 100) /\
    z_critical r = VFloat (decimal 196 100) /\
    (2291 # 1000 <= to_Q (z0 r) <= 2292 # 1000)%Q /\
    Py.gtb (Py.abs (z0 r)) (z_critical r) = true /\
    is_independent r = false.
Proof.
  eexists. split; [vm_compute; reflexivity|].
  cbn [sequence c0 n0 n1 n mu_c0 variance z_critical z0 is_independent].
  do 8 (split; [vm_compute; reflexivity|]).
  split; [split; vm_compute; discriminate|].
  split; vm_compute; reflexivity.
Qed.

(** * The variance *)

Lemma leb_int (x y : Z) : Py.leb (VInt x) (VInt y) = (x <=? y).
Proof.
  unfold Py.leb, Py.compare, Z.leb. destruct (x ?= y); reflexivity.
Qed.

Lemma neb_int (x y : Z) : Py.neb (VInt x) (VInt y) = negb (x =? y).
Proof.
  unfold Py.neb, Py.eqb, Py.compare.
  destruct (Z.compare_spec x y) as [->|H|H]; f_equal; symmetry.
  - apply Z.eqb_refl.
  - apply Z.eqb_neq. lia.
  - apply Z.eqb_neq. lia.
Qed.

(** On ints with [n > 1] the variance is the quotient of the two integer
    products; the test on the denominator never takes its else branch. *)
Lemma calculate_variance_int (n0 n1 n : Z) :
  1 < n ->
  calculate_variance (VInt n0) (VInt n1) (VInt n) =
    (q <- int_truediv (2 * n0 * n1 * (2 * n0 * n1 - n)) (n * n * (n - 1)) ;;
     Ok (VFloat q)).
Proof.
  intros Hn. unfold calculate_variance.
  rewrite leb_int. destruct (Z.leb_spec n 1) as [H|_]; [lia|].
  cbn [Py.mul Py.sub Py.arith Py.bind]. rewrite neb_int.
  destruct (Z.eqb_spec (n * n * (n - 1)) 0) as [H|_]; [nia|].
  reflexivity.
Qed.

(** C4. The variance is 0 for every n <= 1 whatever n0 and n1 are; for ints
    with n > 1 it is the quotient of 2 n0 n1 (2 n0 n1 - n) by n^2 (n - 1),
    rounded once to a double; for n0 = 5, n1 = 5, n = 10 it is the double
    nearest 2000/900 = 2.222... *)
Theorem calculate_variance_spec :
  (forall (n0 n1 : value) (n : Z),
     n <= 1 -> calculate_variance n0 n1 (VInt n) = Ok (VInt 0)) /\
  (forall n0 n1 n : Z,
     1 < n ->
     calculate_variance (VInt n0) (VInt n1) (VInt n) =
       (q <- int_truediv (2 * n0 * n1 * (2 * n0 * n1 - n)) (n * n * (n - 1)) ;;
        Ok (VFloat q))) /\
  calculate_variance (VInt 5) (VInt 5) (VInt 10) = Ok (VFloat (decimal 2000 900)) /\
  (Qabs (to_Q (VFloat (decimal 2000 900)) - (2000 # 900)) <= 1 # 2 ^ 52)%Q.
Proof.
  split; [|split; [|split]].
  - intros n0 n1 n Hn. unfold calculate_variance. rewrite leb_int.
    destruct (Z.leb_spec n 1); [reflexivity|lia].
  - exact calculate_variance_int.
  - vm_compute. reflexivity.
  - vm_compute. discriminate.
Qed.

Lemma calculate_variance_spec_witness :
  calculate_variance (VFloat (decimal 5 10)) (VInt 7) (VInt 1) = Ok (VInt 0) /\
  calculate_variance (VInt 3) (VInt 2) (VInt 5) = Ok (VFloat (decimal 84 100)).
Proof.
  destruct calculate_variance_spec as (H1 & H2 & _).
  split.
  - apply H1. lia.
  - rewrite H2 by lia. vm_compute. reflexivity.
Defined.

(** * The hypothesis validator *)

Lemma to_Q_abs (v : value) : (to_Q (Py.abs v) == Qabs (to_Q v))%Q.
Proof. unfold to_Q. rewrite SF.scaled_abs. reflexivity. Qed.

(** C8. On genuine finite numbers [validate] is true exactly when the
    magnitude of the statistic is at most the critical value, as exact
    values; in particular it is true when the two are equal. *)
Theorem validate_spec (z0 z_critical : value) :
  valid z0 = true -> valid z_critical = true ->
  is_finite z0 = true -> is_finite z_critical = true ->
  (validate z0 z_critical = true <-> (Qabs (to_Q z0) <= to_Q z_critical)%Q) /\
  ((Qabs (to_Q z0) == to_Q z_critical)%Q -> validate z0 z_critical = true).
Proof.
  intros V0 Vc F0 Fc.
  assert (H : validate z0 z_critical = true <-> (Qabs (to_Q z0) <= to_Q z_critical)%Q).
  { unfold validate. rewrite <- to_Q_abs, Qle_to_Q.
    apply SF.leb_exact; try assumption.
    - rewrite SF.valid_abs. exact V0.
    - rewrite SF.is_finite_abs. exact F0. }
  split; [exact H|].
  intros E. apply H. rewrite E. apply Qle_refl.
Qed.

Lemma validate_spec_witness :
  validate (VFloat (decimal 196 100)) (VFloat (decimal 196 100)) = true /\
  validate (VFloat (SFopp (decimal 196 100))) (VFloat (decimal 196 100)) = true /\
  validate (VFloat (decimal 197 100)) (VFloat (decimal 196 100)) = false.
Proof.
  split; [|split].
  - apply (validate_spec (VFloat (decimal 196 100)) (VFloat (decimal 196 100))
             eq_refl eq_refl eq_refl eq_refl).
    vm_compute. reflexivity.
  - apply (validate_spec (VFloat (SFopp (decimal 196 100))) (VFloat (decimal 196 100))
             eq_refl eq_refl eq_refl eq_refl).
    vm_compute. reflexivity.
  - destruct (validate (VFloat (decimal 197 100)) (VFloat (decimal 196 100))) eqn:E;
      [|reflexivity].
    apply (validate_spec (VFloat (decimal 197 100)) (VFloat (decimal 196 100))
             eq_refl eq_refl eq_refl eq_refl) in E.
    exfalso. revert E. vm_compute. intros E. apply E. reflexivity.
Defined.

(** * The test statistic *)

Section Raises.

Lemma to_float_raises (v : value) (e : exn) :
  to_float v = Raise e -> e = OverflowError.
Proof.
  destruct v as [z|f]; [|discriminate].
  unfold to_float, float_of_int.
  destruct (binary_normalize prec emax z 0 false); congruence.
Qed.

Lemma arith_raises fz ff (a b : value) (e : exn) :
  Py.arith fz ff a b = Raise e -> e = OverflowError.
Proof.
  unfold Py.arith.
  destruct a as [x|x], b as [y|y]; try discriminate;
    cbn [to_float Py.bind];
    try (destruct (float_of_int _) eqn:E; cbn [Py.bind];
         [discriminate|intros [= <-]; apply (to_float_raises (VInt _) _ E)]).
Qed.

Lemma int_truediv_raises (a b : Z) (e : exn) :
  int_truediv a b = Raise e -> e = ZeroDivisionError \/ e = OverflowError.
Proof.
  unfold int_truediv. destruct (b =? 0); [intros [= <-]; auto|].
  destruct (SFdiv prec emax (Z2SF a) (Z2SF b)); try discriminate.
  intros [= <-]; auto.
Qed.

Lemma truediv_raises (a b : value) (e : exn) :
  Py.truediv a b = Raise e -> e = ZeroDivisionError \/ e = OverflowError.
Proof.
  unfold Py.truediv.
  assert (Hf : forall x y, Py.bind (float_truediv x y) (fun q => Ok (VFloat q)) = Raise e ->
               e = ZeroDivisionError \/ e = OverflowError).
  { intros x y. unfold float_truediv. destruct (is_zero y); cbn [Py.bind];
      [intros [= <-]; auto|discriminate]. }
  destruct a as [x|x], b as [y|y]; cbn [to_float Py.bind].
  - destruct (int_truediv x y) eqn:E; cbn [Py.bind]; [discriminate|].
    intros [= <-]. apply (int_truediv_raises _ _ _ E).
  - destruct (float_of_int x) eqn:E; cbn [Py.bind]; [apply Hf|].
    intros [= <-]. right. apply (to_float_raises (VInt _) _ E).
  - destruct (float_of_int y) eqn:E; cbn [Py.bind]; [apply Hf|].
    intros [= <-]. right. apply (to_float_raises (VInt _) _ E).
  - apply Hf.
Qed.

(** Dividing by a float that is not zero cannot raise ZeroDivisionError. *)
Lemma truediv_nonzero (a : value) (s : float) :
  is_zero s = false -> Py.truediv a (VFloat s) <> Raise ZeroDivisionError.
Proof.
  intros Hs. unfold Py.truediv, float_truediv.
  destruct a as [x|x]; cbn [to_float Py.bind]; rewrite ?Hs.
  - destruct (float_of_int x) eqn:E; cbn [Py.bind]; [discriminate|].
    intros [= ->]. apply (to_float_raises (VInt _)) in E. discriminate.
  - cbn [Py.bind]. discriminate.
Qed.

End Raises.

Lemma not_leb_zero (v : value) : Py.leb v (VInt 0) = false -> positive_or_nan v.
Proof.
  destruct v as [z|[s|s| |s m e]]; cbn [positive_or_nan].
  - rewrite leb_int. intros H. apply Z.leb_gt in H. exact H.
  - discriminate.
  - destruct s; [discriminate|reflexivity].
  - trivial.
  - destruct s; [|reflexivity]. intros H. exfalso. revert H.
    unfold Py.leb, Py.compare, Zcompare_float. cbn [option_map cond_Zopp].
    pose proof (SF.pow2_pos (Z.max 0 e) ltac:(lia)) as Hp.
    assert (E : (0 * 2 ^ Z.max 0 (- e) ?= - Zpos m * 2 ^ Z.max 0 e) = Gt)
      by (apply Z.compare_gt_iff; nia).
    change (Z.neg m) with (- Zpos m). rewrite E. discriminate.
Qed.

(** The square root of such a number is defined and is not zero, unless
    the conversion of a huge int overflows. *)
Lemma math_sqrt_positive (v : value) :
  valid v = true -> positive_or_nan v ->
  (exists s, math_sqrt v = Ok s /\ is_zero s = false /\
             (forall f, v = VFloat f -> s = SFsqrt prec emax f)) \/
  math_sqrt v = Raise OverflowError.
Proof.
  intros Hv Hp. unfold math_sqrt.
  destruct v as [z|f]; cbn [to_float positive_or_nan valid] in *.
  - destruct (float_of_int z) as [f|e] eqn:E; cbn [Py.bind].
    + left. destruct (SF.float_of_int_pos z f Hp E) as (m & e & -> & He).
      destruct (SF.SFsqrt_pos m e He) as [Hz Hn]. rewrite Hn. cbn [andb].
      eexists. split; [reflexivity|]. split; [exact Hz|]. discriminate.
    + right. f_equal. apply (to_float_raises (VInt z) e E).
  - left. cbn [Py.bind].
    destruct f as [s|s| |s m e]; try contradiction.
    + subst s. eexists. split; [reflexivity|]. split; [reflexivity|].
      intros f [= <-]. reflexivity.
    + eexists. split; [reflexivity|]. split; [reflexivity|].
      intros f [= <-]. reflexivity.
    + subst s. apply SF.bounded_inv in Hv. destruct Hv as [He _].
      destruct (SF.SFsqrt_pos m e ltac:(lia)) as [Hz Hn]. rewrite Hn. cbn [andb].
      eexists. split; [reflexivity|]. split; [exact Hz|].
      intros f [= <-]. reflexivity.
Qed.

(** C3. [calculate_z_statistic] returns 0 whenever the variance is [<= 0];
    otherwise it divides c0 - mu_c0 by the square root of the variance, which
    for an int c0 below 2^1023 in magnitude and floats mu_c0 and variance is
    the double SFdiv (SFsub c0 mu_c0) (SFsqrt variance); and whatever the
    arguments it never raises ZeroDivisionError, the square root of a
    variance that passed the guard being non-zero. *)
Theorem calculate_z_statistic_spec (c0 mu_c0 variance : value) :
  valid variance = true ->
  (Py.leb variance (VInt 0) = true ->
     calculate_z_statistic c0 mu_c0 variance = Ok (VInt 0)) /\
  (Py.leb variance (VInt 0) = false ->
     calculate_z_statistic c0 mu_c0 variance =
       (sigma <- math_sqrt variance ;;
        d <- Py.sub c0 mu_c0 ;;
        Py.truediv d (VFloat sigma)) /\
     forall (z : Z) (m f : float),
       c0 = VInt z -> Z.abs z < 2 ^ 1023 -> mu_c0 = VFloat m -> variance = VFloat f ->
       is_zero (SFsqrt prec emax f) = false /\
       calculate_z_statistic c0 mu_c0 variance =
         Ok (VFloat (SFdiv prec emax
                       (SFsub prec emax (binary_normalize prec emax z 0 false) m)
                       (SFsqrt prec emax f)))) /\
  calculate_z_statistic c0 mu_c0 variance <> Raise ZeroDivisionError.
Proof.
  intros Hv. unfold calculate_z_statistic.
  destruct (Py.leb variance (VInt 0)) eqn:Hle.
  - split; [reflexivity|]. split; [discriminate|discriminate].
  - pose proof (not_leb_zero variance Hle) as Hp.
    destruct (math_sqrt_positive variance Hv Hp) as [(s & Hs & Hz & Hf)|Hs];
      rewrite Hs; cbn [Py.bind].
    + split; [discriminate|]. split.
      * intros _. split; [reflexivity|].
        intros z m f -> Hz' -> Hvar. rewrite (Hf f Hvar) in *.
        split; [exact Hz|].
        unfold Py.sub, Py.arith. cbn [to_float].
        rewrite (SF.float_of_int_bounded z Hz'). cbn [Py.bind].
        unfold Py.truediv. cbn [to_float Py.bind].
        unfold float_truediv. rewrite Hz. reflexivity.
      * destruct (Py.sub c0 mu_c0) as [d|e] eqn:E; cbn [Py.bind].
        -- apply truediv_nonzero. exact Hz.
        -- apply arith_raises in E. subst e. discriminate.
    + split; [discriminate|]. split; [|discriminate].
      intros _. split; [reflexivity|].
      intros z m f _ _ _ ->. exfalso. revert Hs.
      unfold math_sqrt. cbn [to_float Py.bind].
      destruct (is_nan (SFsqrt prec emax f) && negb (is_nan f)); discriminate.
Qed.

Lemma calculate_z_statistic_spec_witness :
  calculate_z_statistic (VInt 5) (VFloat (decimal 29 10)) (VInt 0) = Ok (VInt 0) /\
  calculate_z_statistic (VInt 5) (VFloat (decimal 29 10)) (VFloat (decimal 84 100)) =
    Ok (VFloat (SFdiv prec emax
                  (SFsub prec emax (binary_normalize prec emax 5 0 false) (decimal 29 10))
                  (SFsqrt prec emax (decimal 84 100)))).
Proof.
  split.
  - apply (calculate_z_statistic_spec (VInt 5) (VFloat (decimal 29 10)) (VInt 0) eq_refl).
    reflexivity.
  - destruct (calculate_z_statistic_spec (VInt 5) (VFloat (decimal 29 10))
                (VFloat (decimal 84 100)) eq_refl) as (_ & H & _).
    destruct (H eq_refl) as [_ H'].
    apply (H' 5 (decimal 29 10) (decimal 84 100) eq_refl); [|reflexivity|reflexivity].
    vm_compute. reflexivity.
Defined.

(** * Non-negativity of the variance *)

Section VarianceSign.

(** The quotient of a non-negative int by a positive one is a
    non-negative double, unless it overflows. *)
Lemma int_truediv_nonneg (a b : Z) :
  0 <= a -> 0 < b ->
  (exists f, int_truediv a b = Ok f /\ nonneg_finite f) \/
  int_truediv a b = Raise OverflowError.
Proof.
  intros Ha Hb. unfold int_truediv.
  destruct (Z.eqb_spec b 0) as [H|_]; [lia|].
  destruct a as [|pa|pa]; try lia; destruct b as [|pb|pb]; try lia.
  - left. eexists. split; reflexivity.
  - cbn [Z2SF SFdiv xorb].
    destruct (SF.SFdiv_core_binary_spec (Zpos pa) 0 (Zpos pb) 0)
      as (q & e' & l & -> & He' & Hq); try lia.
    assert (Hq0 : 0 <= q).
    { subst q. apply Z.div_pos; [|lia].
      pose proof (SF.pow2_pos (0 - 0 - e') ltac:(lia)). nia. }
    pose proof (SF.binary_round_aux_sign false q e' l Hq0) as Hs.
    destruct (binary_round_aux prec emax false q e' l) as [s|s| |s m e];
      cbn [has_sign] in Hs; try contradiction; subst s.
    + left. eexists. split; reflexivity.
    + right. reflexivity.
    + left. eexists. split; reflexivity.
Qed.

(** Below [2 ^ K] times the divisor, [K < 1024], it does not overflow. *)
Lemma int_truediv_bounded (a b K : Z) :
  0 <= a -> 0 < b -> 0 <= K < 1024 -> a < b * 2 ^ K ->
  exists f, int_truediv a b = Ok f /\ nonneg_finite f.
Proof.
  intros Ha Hb HK Hlt.
  destruct (int_truediv_nonneg a b Ha Hb) as [H|H]; [exact H|].
  exfalso. revert H. unfold int_truediv.
  destruct (Z.eqb_spec b 0) as [H|_]; [lia|].
  destruct a as [|pa|pa]; try lia; destruct b as [|pb|pb]; try lia.
  - discriminate.
  - cbn [Z2SF SFdiv xorb].
    destruct (SF.SFdiv_core_binary_spec (Zpos pa) 0 (Zpos pb) 0)
      as (q & e' & l & -> & He' & Hq); try lia.
    replace (0 - 0 - e') with (- e') in Hq by lia.
    pose proof (SF.pow2_pos (- e') ltac:(lia)) as Hp.
    pose proof (SF.pow2_pos K ltac:(lia)) as HpK.
    assert (Hq0 : 0 <= q) by (subst q; apply Z.div_pos; [nia|lia]).
    assert (Hqu : q < 2 ^ (K + - e')).
    { subst q. apply Z.div_lt_upper_bound; [lia|].
      rewrite Z.pow_add_r by lia. nia. }
    assert (Hd : Zdigits2 q + e' <= K).
    { pose proof (SF.Zdigits2_le_of_lt_pow2 q (K + - e') Hq0 ltac:(lia) Hqu). lia. }
    destruct (SF.binary_round_aux_finite false q e' K l Hq0 Hd)
      as [-> | (m & e & ->)]; try lia; discriminate.
Qed.

Lemma variance_numerator_nonneg (n0 n1 : Z) :
  0 <= n0 -> 0 <= n1 -> 0 <= 2 * n0 * n1 * (2 * n0 * n1 - (n0 + n1)).
Proof.
  intros H0 H1.
  destruct (Z.eq_dec n0 0) as [->|Hn0]; [lia|].
  destruct (Z.eq_dec n1 0) as [->|Hn1]; [lia|].
  apply Z.mul_nonneg_nonneg; [nia|].
  assert (0 <= n0 * (n1 - 1)) by nia.
  assert (0 <= n1 * (n0 - 1)) by nia.
  lia.
Qed.

Lemma variance_quotient_bound (n0 n1 : Z) :
  0 <= n0 -> 0 <= n1 -> 1 < n0 + n1 ->
  4 * (2 * n0 * n1 * (2 * n0 * n1 - (n0 + n1)))
    <= (n0 + n1) * ((n0 + n1) * (n0 + n1) * (n0 + n1 - 1)).
Proof.
  intros H0 H1 Hn.
  pose proof (variance_numerator_nonneg n0 n1 H0 H1) as Hnum.
  assert (H2P : 2 * (2 * n0 * n1) <= (n0 + n1) * (n0 + n1)).
  { pose proof (Z.square_nonneg (n0 - n1)) as Hsq.
    replace ((n0 + n1) * (n0 + n1))
      with ((n0 - n1) * (n0 - n1) + 2 * (2 * n0 * n1)) by ring.
    lia. }
  assert (HP : 0 <= 2 * n0 * n1) by nia.
  generalize dependent (2 * n0 * n1). intros P Hnum H2P HP.
  generalize dependent (n0 + n1). intros n Hn Hnum H2P.
  assert (Hn3 : 0 <= n * n * n) by nia.
  destruct (Z.eq_dec P 0) as [HP0|HP0].
  - subst P. nia.
  - assert (HPn : n <= P) by nia.
    assert (Hm : (2 * P) * (2 * P - 2 * n) <= (n * n) * (n * n - 2 * n))
      by (apply Z.mul_le_mono_nonneg; lia).
    replace (4 * (P * (P - n))) with ((2 * P) * (2 * P - 2 * n)) by ring.
    replace (n * (n * n * (n - 1))) with ((n * n) * (n * n - 2 * n) + n * n * n) by ring.
    lia.
Qed.

End VarianceSign.

Section NoValueError.

Lemma SFsqrt_not_nan (m : positive) (e : Z) :
  is_nan (SFsqrt prec emax (S754_finite false m e)) = false.
Proof.
  unfold SFsqrt, SFsqrt_core_binary.
  set (m' := match e - 2 * _ with Z0 => Zpos m | Zpos _ => _ | Zneg _ => 0 end).
  pose proof (Z.sqrtrem_sqrt m') as Hq.
  destruct (Z.sqrtrem m') as [q r]. cbn [fst] in Hq.
  pose proof (Z.sqrt_nonneg m') as Hq0. rewrite <- Hq in Hq0.
  match goal with
  | |- is_nan (binary_round_aux _ _ _ _ ?e' ?l) = false =>
      pose proof (SF.binary_round_aux_sign false q e' l Hq0) as Hs;
      destruct (binary_round_aux prec emax false q e' l)
  end; try reflexivity. contradiction.
Qed.

Lemma gtb_zero (v : value) : Py.gtb v (VInt 0) = true -> Py.leb v (VInt 0) = false.
Proof.
  unfold Py.gtb, Py.leb. destruct (Py.compare v (VInt 0)) as [[]|]; congruence.
Qed.

(** [math.sqrt] of a number that is not [<= 0] is no domain error. *)
Lemma math_sqrt_no_ValueError (v : value) :
  positive_or_nan v -> math_sqrt v <> Raise ValueError.
Proof.
  intros Hp. unfold math_sqrt.
  destruct v as [z|f]; cbn [to_float positive_or_nan] in *.
  - destruct (float_of_int z) as [f|e] eqn:E; cbn [Py.bind].
    + destruct (SF.float_of_int_pos z f Hp E) as (m & e & -> & He).
      rewrite SFsqrt_not_nan. discriminate.
    + apply (to_float_raises (VInt z)) in E. subst e. discriminate.
  - cbn [Py.bind]. destruct f as [s|s| |s m e]; try contradiction; subst;
      try discriminate.
    rewrite SFsqrt_not_nan. discriminate.
Qed.

Lemma calculate_z_statistic_no_ValueError (c0 mu_c0 variance : value) :
  calculate_z_statistic c0 mu_c0 variance <> Raise ValueError.
Proof.
  unfold calculate_z_statistic.
  destruct (Py.leb variance (VInt 0)) eqn:Hle; [discriminate|].
  pose proof (math_sqrt_no_ValueError variance (not_leb_zero variance Hle)) as Hs.
  destruct (math_sqrt variance) as [s|e]; cbn [Py.bind]; [|congruence].
  destruct (Py.sub c0 mu_c0) as [d|e] eqn:E; cbn [Py.bind].
  - intros H. apply truediv_raises in H. destruct H; discriminate.
  - apply arith_raises in E. subst e. discriminate.
Qed.

Lemma calculate_expected_runs_raises (n0 n1 n : Z) (e : exn) :
  calculate_expected_runs (VInt n0) (VInt n1) (VInt n) = Raise e ->
  e = ZeroDivisionError \/ e = OverflowError.
Proof.
  unfold calculate_expected_runs. cbn [Py.mul Py.arith Py.bind].
  destruct (Py.truediv (VInt (2 * n0 * n1)) (VInt n)) as [q|e'] eqn:E;
    cbn [Py.bind].
  - intros H. apply arith_raises in H. auto.
  - intros [= <-]. apply (truediv_raises _ _ _ E).
Qed.

Lemma calculate_variance_raises (n0 n1 n : Z) (e : exn) :
  calculate_variance (VInt n0) (VInt n1) (VInt n) = Raise e ->
  e = ZeroDivisionError \/ e = OverflowError.
Proof.
  destruct (Z_le_gt_dec n 1) as [Hn|Hn].
  - unfold calculate_variance. rewrite leb_int.
    destruct (Z.leb_spec n 1); [discriminate|lia].
  - rewrite calculate_variance_int by lia.
    destruct (int_truediv _ _) as [q|e'] eqn:E; cbn [Py.bind]; [discriminate|].
    intros [= <-]. apply (int_truediv_raises _ _ _ E).
Qed.

Lemma get_critical_value_ok (alpha : value) :
  exists zc, get_critical_value alpha = Ok zc.
Proof. rewrite get_critical_value_eq. eexists; reflexivity. Qed.

(** No path through [execute] ends in a domain error of [math.sqrt]. *)
Lemma execute_no_ValueError (data : list value) (alpha : value) :
  execute data alpha <> Raise ValueError.
Proof.
  unfold execute. destruct (count_values (generate data)) as [k0 k1].
  destruct (calculate_expected_runs _ _ _) as [mu|e] eqn:Emu; cbn [Py.bind].
  2:{ apply calculate_expected_runs_raises in Emu. destruct Emu; subst; discriminate. }
  destruct (calculate_variance _ _ _) as [v|e] eqn:Ev; cbn [Py.bind].
  2:{ apply calculate_variance_raises in Ev. destruct Ev; subst; discriminate. }
  assert (Hsig : forall e,
    (if Py.gtb v (VInt 0) then s <- math_sqrt v ;; Ok (VFloat s) else Ok (VInt 0))
    = Raise e -> e <> ValueError).
  { intros e. destruct (Py.gtb v (VInt 0)) eqn:G; [|discriminate].
    pose proof (math_sqrt_no_ValueError v (not_leb_zero v (gtb_zero v G))) as Hs.
    destruct (math_sqrt v); cbn [Py.bind]; congruence. }
  destruct (if Py.gtb v (VInt 0) then _ else _) as [sig|e] eqn:Es; cbn [Py.bind].
  2:{ intros [= ->]. apply (Hsig ValueError eq_refl). reflexivity. }
  pose proof (calculate_z_statistic_no_ValueError
                (VInt (count (generate data))) mu v) as Hz.
  destruct (calculate_z_statistic _ _ _) as [z|e]; cbn [Py.bind]; [|congruence].
  destruct (get_critical_value_ok alpha) as [zc ->]. cbn [Py.bind].
  destruct (Py.sub (VInt 1) alpha) as [d|e] eqn:Ed; cbn [Py.bind].
  2:{ apply arith_raises in Ed. subst e. discriminate. }
  destruct (Py.mul d (VInt 100)) as [c|e] eqn:Ec; cbn [Py.bind]; [discriminate|].
  apply arith_raises in Ec. subst e. discriminate.
Qed.

End NoValueError.

Section VarianceNonneg.

Lemma nonneg_value_facts (v : value) :
  nonneg_value v ->
  Py.leb (VInt 0) v = true /\ (0 <= to_Q v)%Q /\ exists s, math_sqrt v = Ok s.
Proof.
  destruct v as [z|[s|s| |s m e]]; cbn [nonneg_value nonneg_finite];
    intros H; try contradiction; subst.
  - split; [reflexivity|]. split; [vm_compute; discriminate|].
    eexists. vm_compute. reflexivity.
  - split; [reflexivity|]. split; [vm_compute; discriminate|].
    eexists. reflexivity.
  - pose proof (SF.pow2_pos (Z.max 0 e) ltac:(lia)) as Hp.
    split; [|split].
    + unfold Py.leb, Py.compare, Zcompare_float. cbn [cond_Zopp].
      assert (E : (0 * 2 ^ Z.max 0 (- e) ?= Zpos m * 2 ^ Z.max 0 e) = Lt)
        by (apply Z.compare_lt_iff; nia).
      rewrite E. reflexivity.
    + unfold to_Q, Qle. cbn [Qnum Qden scaled scaled_float cond_Zopp].
      pose proof (Z.pow_nonneg 2 (e + 1074) ltac:(lia)). nia.
    + unfold math_sqrt. cbn [to_float Py.bind].
      rewrite SFsqrt_not_nan. eexists. reflexivity.
Qed.

Lemma calculate_variance_sign (n0 n1 : Z) (v : value) :
  0 <= n0 -> 0 <= n1 ->
  calculate_variance (VInt n0) (VInt n1) (VInt (n0 + n1)) = Ok v ->
  nonneg_value v.
Proof.
  intros H0 H1. destruct (Z_le_gt_dec (n0 + n1) 1) as [Hn|Hn].
  - unfold calculate_variance. rewrite leb_int.
    destruct (Z.leb_spec (n0 + n1) 1); [|lia]. intros [= <-]. reflexivity.
  - rewrite calculate_variance_int by lia.
    destruct (int_truediv_nonneg
                (2 * n0 * n1 * (2 * n0 * n1 - (n0 + n1)))
                ((n0 + n1) * (n0 + n1) * (n0 + n1 - 1)))
      as [(f & -> & Hf)| ->].
    + apply variance_numerator_nonneg; assumption.
    + nia.
    + cbn [Py.bind]. intros [= <-]. exact Hf.
    + discriminate.
Qed.

Lemma calculate_variance_returns (n0 n1 : Z) :
  0 <= n0 -> 0 <= n1 -> n0 + n1 < 2 ^ 1024 ->
  exists v, calculate_variance (VInt n0) (VInt n1) (VInt (n0 + n1)) = Ok v.
Proof.
  intros H0 H1 Hb. destruct (Z_le_gt_dec (n0 + n1) 1) as [Hn|Hn].
  - unfold calculate_variance. rewrite leb_int.
    destruct (Z.leb_spec (n0 + n1) 1); [|lia]. eexists; reflexivity.
  - rewrite calculate_variance_int by lia.
    destruct (int_truediv_bounded
                (2 * n0 * n1 * (2 * n0 * n1 - (n0 + n1)))
                ((n0 + n1) * (n0 + n1) * (n0 + n1 - 1)) 1022)
      as (f & -> & _).
    + apply variance_numerator_nonneg; assumption.
    + nia.
    + lia.
    + pose proof (variance_quotient_bound n0 n1 H0 H1 ltac:(lia)) as Hq.
      assert (Hden : 0 < (n0 + n1) * (n0 + n1) * (n0 + n1 - 1)) by nia.
      change (2 ^ 1024) with (4 * 2 ^ 1022) in Hb.
      generalize dependent (2 ^ 1022). intros c Hb.
      generalize dependent ((n0 + n1) * (n0 + n1) * (n0 + n1 - 1)). intros b Hq Hden.
      generalize dependent (2 * n0 * n1 * (2 * n0 * n1 - (n0 + n1))). intros a Hq.
      assert ((n0 + n1) * b < 4 * c * b) by nia.
      nia.
    + cbn [Py.bind]. eexists; reflexivity.
Qed.

End VarianceNonneg.

(** C9. For non-negative counts n0 and n1 of a sample of size n = n0 + n1
    the variance never comes out negative: whatever [calculate_variance]
    returns is [>= 0] and has a square root, and it does return for every
    n below 2^1024 (beyond that the int division overflows).  Moreover no
    square root in [calculate_z_statistic] or in [execute] is ever taken of
    a negative number: neither raises the domain error of [math.sqrt]. *)
Theorem variance_nonneg :
  (forall n0 n1 n : Z,
     0 <= n0 -> 0 <= n1 -> n = n0 + n1 ->
     (forall v, calculate_variance (VInt n0) (VInt n1) (VInt n) = Ok v ->
        Py.leb (VInt 0) v = true /\ (0 <= to_Q v)%Q /\
        exists s, math_sqrt v = Ok s) /\
     (n < 2 ^ 1024 ->
        exists v, calculate_variance (VInt n0) (VInt n1) (VInt n) = Ok v)) /\
  (forall c0 mu_c0 variance : value,
     calculate_z_statistic c0 mu_c0 variance <> Raise ValueError) /\
  (forall (data : list value) (alpha : value),
     execute data alpha <> Raise ValueError).
Proof.
  split; [|split].
  - intros n0 n1 n H0 H1 ->. split.
    + intros v Hv. apply nonneg_value_facts.
      apply (calculate_variance_sign n0 n1 v H0 H1 Hv).
    + intros Hb. apply calculate_variance_returns; assumption.
  - exact calculate_z_statistic_no_ValueError.
  - exact execute_no_ValueError.
Qed.

Lemma variance_nonneg_witness :
  exists v, calculate_variance (VInt 3) (VInt 2) (VInt 5) = Ok v /\
            Py.leb (VInt 0) v = true.
Proof.
  destruct variance_nonneg as (H & _ & _).
  destruct (H 3 2 5 ltac:(lia) ltac:(lia) eq_refl) as [Hnn Hret].
  destruct (Hret eq_refl) as [v Hv].
  exists v. split; [exact Hv|]. apply (Hnn v Hv).
Defined.

(** * Constant samples *)

Section ConstantSample.

Lemma SFcompare_antisym (x y : float) :
  SFcompare y x = option_map CompOpp (SFcompare x y).
Proof.
  destruct x as [sx|sx| |sx mx ex], y as [sy|sy| |sy my ey];
    try reflexivity;
    try (destruct sx; reflexivity);
    try (destruct sy; reflexivity);
    try (destruct sx, sy; reflexivity).
  cbn [SFcompare option_map]. f_equal.
  destruct sx, sy; try reflexivity.
  - rewrite (Z.compare_antisym ex ey).
    destruct (ex ?= ey); cbn [CompOpp]; try reflexivity.
    f_equal. symmetry. apply (Pos.compare_cont_antisym mx my Eq).
  - rewrite (Z.compare_antisym ex ey).
    destruct (ex ?= ey); cbn [CompOpp]; try reflexivity.
    symmetry. apply (Pos.compare_cont_antisym mx my Eq).
Qed.

Lemma compare_antisym (a b : value) :
  Py.compare b a = option_map CompOpp (Py.compare a b).
Proof.
  destruct a as [x|x], b as [y|y]; cbn [Py.compare option_map].
  - rewrite (Z.compare_antisym x y). reflexivity.
  - reflexivity.
  - destruct (Zcompare_float y x) as [c|]; cbn [option_map];
      [rewrite CompOpp_involutive|]; reflexivity.
  - apply SFcompare_antisym.
Qed.

(** [b >= a] excludes [b < a]. *)
Lemma leb_not_ltb (a b : value) : Py.leb a b = true -> Py.ltb b a = false.
Proof.
  unfold Py.leb, Py.ltb. rewrite (compare_antisym a b).
  destruct (Py.compare a b) as [[]|]; cbn [option_map CompOpp]; congruence.
Qed.

Lemma generate_below (data : list value) :
  Forall (fun v => Py.ltb v (VFloat THRESHOLD) = true) data ->
  generate data = repeat 0 (length data).
Proof.
  induction 1 as [|v l Hv _ IH]; [reflexivity|].
  cbn [generate map length repeat]. rewrite Hv. f_equal. exact IH.
Qed.

Lemma generate_not_below (data : list value) :
  Forall (fun v => Py.ltb v (VFloat THRESHOLD) = false) data ->
  generate data = repeat 1 (length data).
Proof.
  induction 1 as [|v l Hv _ IH]; [reflexivity|].
  cbn [generate map length repeat]. rewrite Hv. f_equal. exact IH.
Qed.

Lemma list_count_repeat (x y : Z) (k : nat) :
  list_count x (repeat y k) = if x =? y then Z.of_nat k else 0.
Proof.
  unfold list_count. induction k as [|k IH]; cbn [repeat filter].
  - destruct (x =? y); reflexivity.
  - destruct (x =? y); cbn [length]; lia.
Qed.

Lemma int_truediv_zero (b : Z) : 0 < b -> int_truediv 0 b = Ok (S754_zero false).
Proof.
  intros Hb. unfold int_truediv.
  destruct (Z.eqb_spec b 0); [lia|]. destruct b; try lia. reflexivity.
Qed.

(** With one of the two counts at zero the expected runs are computed
    and the variance is zero. *)
Lemma calculate_expected_runs_degenerate (k0 k1 k : Z) :
  k0 * k1 = 0 -> 0 < k ->
  exists mu, calculate_expected_runs (VInt k0) (VInt k1) (VInt k) = Ok mu.
Proof.
  intros Hz Hk. unfold calculate_expected_runs.
  cbn [Py.mul Py.arith Py.bind Py.truediv].
  replace (2 * k0 * k1) with 0 by lia.
  rewrite int_truediv_zero by lia. cbn [Py.bind].
  unfold Py.add, Py.arith. cbn [to_float Py.bind]. eexists; reflexivity.
Qed.

Lemma calculate_variance_degenerate (k0 k1 k : Z) :
  k0 * k1 = 0 -> 0 < k ->
  calculate_variance (VInt k0) (VInt k1) (VInt k) = Ok (VInt 0) \/
  calculate_variance (VInt k0) (VInt k1) (VInt k) = Ok (VFloat (S754_zero false)).
Proof.
  intros Hz Hk. destruct (Z_le_gt_dec k 1) as [H|H].
  - left. unfold calculate_variance. rewrite leb_int.
    destruct (Z.leb_spec k 1); [reflexivity|lia].
  - right. rewrite calculate_variance_int by lia.
    replace (2 * k0 * k1 * (2 * k0 * k1 - k)) with 0 by nia.
    rewrite int_truediv_zero by nia. reflexivity.
Qed.

Lemma confidence_ok (alpha : value) :
  exists c, (d <- Py.sub (VInt 1) alpha ;; Py.mul d (VInt 100)) = Ok c.
Proof.
  assert (H1 : float_of_int 1 = Ok (S754_finite false 4503599627370496 (-52)))
    by (vm_compute; reflexivity).
  assert (H100 : float_of_int 100 = Ok (S754_finite false 7036874417766400 (-46)))
    by (vm_compute; reflexivity).
  destruct alpha as [a|f]; unfold Py.sub, Py.mul, Py.arith;
    cbn [to_float Py.bind].
  - eexists; reflexivity.
  - rewrite H1. cbn [Py.bind to_float]. rewrite H100. cbn [Py.bind].
    eexists; reflexivity.
Qed.

Lemma validate_zero (alpha : value) :
  exists zc, get_critical_value alpha = Ok zc /\ validate (VInt 0) zc = true.
Proof.
  rewrite get_critical_value_eq. eexists. split; [reflexivity|].
  destruct (Py.eqb alpha (VFloat (decimal 1 100))); [vm_compute; reflexivity|].
  destruct (Py.eqb alpha (VFloat (decimal 5 100))); [vm_compute; reflexivity|].
  destruct (Py.eqb alpha (VFloat (decimal 10 100))); vm_compute; reflexivity.
Qed.

(** [execute] when the encoded sequence has one symbol only. *)
Lemma execute_degenerate (data : list value) (alpha : value) :
  data <> [] ->
  fst (count_values (generate data)) * snd (count_values (generate data)) = 0 ->
  exists r, execute data alpha = Ok r /\
            Py.eqb (variance r) (VInt 0) = true /\
            sigma_c0 r = VInt 0 /\ z0 r = VInt 0 /\ is_independent r = true.
Proof.
  intros Hne Hz. unfold execute.
  destruct (count_values (generate data)) as [k0 k1]. cbn [fst snd] in Hz.
  assert (Hk : 0 < Z.of_nat (length data))
    by (destruct data; [congruence|cbn [length]; lia]).
  destruct (calculate_expected_runs_degenerate k0 k1 _ Hz Hk) as [mu ->].
  cbn [Py.bind].
  destruct (validate_zero alpha) as (zc & Hzc & Hval).
  destruct (confidence_ok alpha) as [c Hc].
  destruct (calculate_variance_degenerate k0 k1 _ Hz Hk) as [-> | ->];
    cbn [Py.bind];
    unfold calculate_z_statistic;
    match goal with
    | |- context [Py.gtb ?v (VInt 0)] =>
        change (Py.gtb v (VInt 0)) with false;
        change (Py.leb v (VInt 0)) with true
    end;
    cbn [Py.bind]; rewrite Hzc; cbn [Py.bind];
    destruct (Py.sub (VInt 1) alpha) as [d|e]; cbn [Py.bind] in Hc |- *;
    try discriminate; rewrite Hc; cbn [Py.bind];
    eexists; (split; [reflexivity|]);
    cbn [variance sigma_c0 z0 is_independent];
    repeat (split; [reflexivity|]); exact Hval.
Qed.

End ConstantSample.

(** C10. On a non-empty sample whose values are all strictly below 0.5, or
    all at least 0.5, [execute] returns a record with variance equal to 0,
    Z0 = 0 and is_independent true, one of n0 and n1 being zero; this for
    every significance level. *)
Theorem execute_constant_sample (data : list value) (alpha : value) :
  data <> [] ->
  Forall (fun v => Py.ltb v (VFloat THRESHOLD) = true) data \/
  Forall (fun v => Py.leb (VFloat THRESHOLD) v = true) data ->
  exists r, execute data alpha = Ok r /\
            (n0 r = 0 \/ n1 r = 0) /\
            Py.eqb (variance r) (VInt 0) = true /\
            z0 r = VInt 0 /\ is_independent r = true.
Proof.
  intros Hne Hconst.
  assert (Hseq : generate data = repeat 0 (length data) \/
                 generate data = repeat 1 (length data)).
  { destruct Hconst as [H|H]; [left; apply generate_below; exact H|right].
    apply generate_not_below. eapply Forall_impl; [|exact H].
    intros v Hv. apply leb_not_ltb. exact Hv. }
  assert (Hz : fst (count_values (generate data)) = 0 \/
               snd (count_values (generate data)) = 0).
  { unfold count_values. cbn [fst snd].
    destruct Hseq as [-> | ->]; rewrite !list_count_repeat; [right|left]; reflexivity. }
  destruct (execute_degenerate data alpha Hne) as (r & Hr & Hv & _ & Hz0 & Hind).
  { destruct Hz as [-> | ->]; lia. }
  exists r. split; [exact Hr|]. split; [|split; [exact Hv|split; assumption]].
  revert Hr. unfold execute.
  destruct (count_values (generate data)) as [k0 k1]. cbn [fst snd] in Hz.
  repeat match goal with
         | |- Py.bind ?c _ = Ok _ -> _ => destruct c; cbn [Py.bind]; [|discriminate]
         end.
  intros [= <-]. exact Hz.
Qed.

Lemma execute_constant_sample_witness :
  exists r,
    execute [VFloat (decimal 1 10); VFloat (decimal 2 10)] (VFloat (decimal 5 100)) = Ok r /\
    z0 r = VInt 0 /\ is_independent r = true.
Proof.
  destruct (execute_constant_sample
              [VFloat (decimal 1 10); VFloat (decimal 2 10)] (VFloat (decimal 5 100)))
    as (r & Hr & _ & _ & Hz & Hi).
  - discriminate.
  - left. repeat constructor.
  - exists r. split; [exact Hr|]. split; assumption.
Defined.

(** * Further properties of the core *)

Section ExecuteReturns.

Lemma binary_round_aux_exp (sx s : bool) (m e : Z) (l : location) (m' : positive) (e' : Z) :
  0 <= m ->
  binary_round_aux prec emax sx m e l = S754_finite s m' e' -> e <= e'.
Proof.
  intros Hm. destruct (SF.binary_round_aux_spec sx m e l Hm) as (m2 & _ & ->).
  pose proof (SF.shift_nonneg m e). pose proof (SF.shift_nonneg m2 (e + shift m e)).
  unfold pack. destruct (m2 / 2 ^ shift m2 (e + shift m e)); try discriminate.
  destruct (_ <=? _); [|discriminate]. intros [= _ _ <-]. lia.
Qed.

(** The exponent of a quotient of two positive ints is a binary64 exponent. *)
Lemma int_truediv_exp (a b : Z) (f : float) :
  0 <= a -> 0 < b -> int_truediv a b = Ok f ->
  forall s m e, f = S754_finite s m e -> -1074 <= e.
Proof.
  intros Ha Hb. unfold int_truediv.
  destruct (Z.eqb_spec b 0) as [H|_]; [lia|].
  destruct a as [|pa|pa]; try lia; destruct b as [|pb|pb]; try lia.
  - cbn [Z2SF SFdiv xorb]. intros [= <-] s m e. discriminate.
  - cbn [Z2SF SFdiv xorb]. unfold SFdiv_core_binary.
    set (e' := Z.min _ (0 - 0)).
    assert (He' : -1074 <= e') by (unfold e'; rewrite SF.fexp_eq; lia).
    set (m' := match 0 - 0 - e' with Z0 => Zpos pa | Zpos _ => _ | Zneg _ => 0 end).
    assert (Hm' : 0 <= m').
    { unfold m'. destruct (0 - 0 - e') as [|s|s]; try lia.
      rewrite Z.shiftl_mul_pow2 by lia. pose proof (SF.pow2_pos (Zpos s)). nia. }
    pose proof (Z.div_eucl_eq m' (Zpos pb) ltac:(lia)) as Heq.
    pose proof (Z_div_mod m' (Zpos pb) ltac:(lia)) as Hdm.
    destruct (Z.div_eucl m' (Zpos pb)) as [q r].
    assert (Hq : 0 <= q) by nia.
    intros Hf s m e ->.
    destruct (binary_round_aux prec emax false q e' (new_location (Zpos pb) r))
      as [s0|s0| |s0 m0 e0] eqn:E; try discriminate.
    injection Hf as -> -> ->.
    pose proof (binary_round_aux_exp _ _ _ _ _ _ _ Hq E). lia.
Qed.

Lemma list_count_nonneg (x : Z) (l : list Z) : 0 <= list_count x l.
Proof. unfold list_count. lia. Qed.

Lemma binary_generate (data : list value) : binary (generate data).
Proof.
  unfold binary, generate. apply Forall_forall. intros x Hx.
  apply in_map_iff in Hx. destruct Hx as (v & <- & _).
  destruct (Py.ltb v (VFloat THRESHOLD)); auto.
Qed.

Lemma count_values_generate (data : list value) :
  fst (count_values (generate data)) + snd (count_values (generate data))
    = Z.of_nat (length data).
Proof.
  pose proof (list_count_binary (generate data) (binary_generate data)) as H.
  unfold generate in H at 3. rewrite length_map in H. exact H.
Qed.

Lemma two_products_bound (k0 k1 : Z) :
  0 <= k0 -> 0 <= k1 -> 2 * (2 * k0 * k1) <= (k0 + k1) * (k0 + k1).
Proof.
  intros H0 H1. pose proof (Z.square_nonneg (k0 - k1)) as Hsq.
  replace ((k0 + k1) * (k0 + k1))
    with ((k0 - k1) * (k0 - k1) + 2 * (2 * k0 * k1)) by ring.
  lia.
Qed.

(** On the counts of a non-empty sample the expected number of runs is
    computed, and is a float. *)
Lemma calculate_expected_runs_returns (k0 k1 : Z) :
  0 <= k0 -> 0 <= k1 -> 0 < k0 + k1 -> k0 + k1 < 2 ^ 1023 ->
  exists mu : float,
    calculate_expected_runs (VInt k0) (VInt k1) (VInt (k0 + k1)) = Ok (VFloat mu).
Proof.
  intros H0 H1 Hn Hb. unfold calculate_expected_runs.
  cbn [Py.mul Py.arith Py.bind Py.truediv].
  destruct (int_truediv_bounded (2 * k0 * k1) (k0 + k1) 1023) as (q & -> & _).
  - nia.
  - lia.
  - lia.
  - pose proof (two_products_bound k0 k1 H0 H1) as Hp.
    generalize dependent (2 ^ 1023). intros c Hb.
    generalize dependent (2 * k0 * k1). intros a Ha.
    assert ((k0 + k1) * (k0 + k1) <= (k0 + k1) * c) by nia.
    nia.
  - cbn [Py.bind]. unfold Py.add, Py.arith. cbn [to_float Py.bind].
    eexists; reflexivity.
Qed.

(** The variance of the counts of a sample is the int 0 or a non-negative
    finite float whose exponent is a binary64 exponent. *)
Lemma calculate_variance_shape (k0 k1 : Z) (v : value) :
  0 <= k0 -> 0 <= k1 ->
  calculate_variance (VInt k0) (VInt k1) (VInt (k0 + k1)) = Ok v ->
  nonneg_value v /\ forall s m e, v = VFloat (S754_finite s m e) -> -1074 <= e.
Proof.
  intros H0 H1 Hv. split; [apply (calculate_variance_sign k0 k1 v H0 H1 Hv)|].
  revert Hv. destruct (Z_le_gt_dec (k0 + k1) 1) as [Hn|Hn].
  - unfold calculate_variance. rewrite leb_int.
    destruct (Z.leb_spec (k0 + k1) 1); [|lia]. intros [= <-]. discriminate.
  - rewrite calculate_variance_int by lia.
    destruct (int_truediv _ _) as [f|e0] eqn:E; cbn [Py.bind]; [|discriminate].
    intros [= <-] s m e [= ->].
    assert (Hden : 0 < (k0 + k1) * (k0 + k1) * (k0 + k1 - 1)) by nia.
    apply (int_truediv_exp _ _ _ (variance_numerator_nonneg k0 k1 H0 H1)
             Hden E s m e eq_refl).
Qed.

(** For a variance of that shape the statistic is computed, whatever the
    expected value, for every run count below 2^1023 in magnitude. *)
Lemma calculate_z_statistic_returns (c : Z) (mu : float) (v : value) :
  Z.abs c < 2 ^ 1023 ->
  nonneg_value v -> (forall s m e, v = VFloat (S754_finite s m e) -> -1074 <= e) ->
  exists z, calculate_z_statistic (VInt c) (VFloat mu) v = Ok z.
Proof.
  intros Hc Hnn He. unfold calculate_z_statistic.
  destruct v as [z|[s|s| |s m e]]; cbn [nonneg_value nonneg_finite] in Hnn;
    try contradiction; subst.
  - eexists; reflexivity.
  - eexists; reflexivity.
  - specialize (He false m e eq_refl).
    destruct (SF.SFsqrt_pos m e He) as [Hz Hn].
    destruct (Py.leb _ _); [eexists; reflexivity|].
    unfold math_sqrt. cbn [to_float Py.bind]. rewrite Hn. cbn [andb Py.bind].
    unfold Py.sub, Py.arith. cbn [to_float].
    rewrite (SF.float_of_int_bounded c Hc). cbn [Py.bind].
    unfold Py.truediv. cbn [to_float Py.bind].
    unfold float_truediv. rewrite Hz. cbn [Py.bind]. eexists; reflexivity.
Qed.

Lemma sigma_returns (v : value) :
  nonneg_value v ->
  exists sg, (if Py.gtb v (VInt 0) then s <- math_sqrt v ;; Ok (VFloat s) else Ok (VInt 0))
             = Ok sg.
Proof.
  intros Hnn. destruct (Py.gtb v (VInt 0)); [|eexists; reflexivity].
  destruct (nonneg_value_facts v Hnn) as (_ & _ & s & ->). cbn [Py.bind].
  eexists; reflexivity.
Qed.

End ExecuteReturns.

Section ExecuteRecord.

Lemma count_bounds (l : list Z) :
  0 <= count l <= Z.of_nat (length l) /\ (l <> [] -> 1 <= count l).
Proof.
  destruct l as [|x xs].
  - split; [simpl; lia|congruence].
  - rewrite count_cons. pose proof (changes_bounds xs x).
    rewrite length_cons, Nat2Z.inj_succ. split; [lia|]. intros _. lia.
Qed.

(** What a successful run of [execute] went through. *)
Lemma execute_inv (data : list value) (alpha : value) (r : RunsTestResult) :
  execute data alpha = Ok r ->
  exists mu v sg z zc d cf,
    calculate_expected_runs (VInt (list_count 0 (generate data)))
      (VInt (list_count 1 (generate data))) (VInt (Z.of_nat (length data))) = Ok mu /\
    calculate_variance (VInt (list_count 0 (generate data)))
      (VInt (list_count 1 (generate data))) (VInt (Z.of_nat (length data))) = Ok v /\
    (if Py.gtb v (VInt 0) then s <- math_sqrt v ;; Ok (VFloat s) else Ok (VInt 0)) = Ok sg /\
    calculate_z_statistic (VInt (count (generate data))) mu v = Ok z /\
    get_critical_value alpha = Ok zc /\
    Py.sub (VInt 1) alpha = Ok d /\ Py.mul d (VInt 100) = Ok cf /\
    r = {| sequence := generate data; c0 := count (generate data);
           n0 := list_count 0 (generate data); n1 := list_count 1 (generate data);
           n := Z.of_nat (length data);
           mu_c0 := mu; variance := v; sigma_c0 := sg; z0 := z; z_critical := zc;
           is_independent := validate z zc; alpha := alpha; confidence := cf |}.
Proof.
  unfold execute, count_values.
  destruct (calculate_expected_runs _ _ _) as [mu|]; cbn [Py.bind]; [|discriminate].
  destruct (calculate_variance _ _ _) as [v|]; cbn [Py.bind]; [|discriminate].
  destruct (if Py.gtb v (VInt 0) then _ else _) as [sg|] eqn:Esg;
    cbn [Py.bind]; [|discriminate].
  destruct (calculate_z_statistic _ _ _) as [z|] eqn:Ez; cbn [Py.bind]; [|discriminate].
  destruct (get_critical_value alpha) as [zc|]; cbn [Py.bind]; [|discriminate].
  destruct (Py.sub (VInt 1) alpha) as [d|]; cbn [Py.bind]; [|discriminate].
  destruct (Py.mul d (VInt 100)) as [cf|] eqn:Ecf; cbn [Py.bind]; [|discriminate].
  intros [= <-]. exists mu, v, sg, z, zc, d, cf.
  split; [reflexivity|]. split; [reflexivity|]. split; [exact Esg|].
  split; [exact Ez|]. split; [reflexivity|]. split; [reflexivity|].
  split; [exact Ecf|reflexivity].
Qed.

End ExecuteRecord.

(** On a non-empty sample of fewer than 2^1023 values every step of
    [execute] returns. *)
Lemma execute_returns (data : list value) (alpha : value) :
  data <> [] -> Z.of_nat (length data) < 2 ^ 1023 ->
  exists r, execute data alpha = Ok r.
Proof.
  intros Hne Hlen.
  pose proof (count_values_generate data) as Hsum.
  pose proof (count_bounds (generate data)) as [Hc _].
  assert (Hlg : length (generate data) = length data)
    by (unfold generate; apply length_map).
  rewrite Hlg in Hc.
  unfold execute. unfold count_values in *. cbn [fst snd] in Hsum.
  pose proof (list_count_nonneg 0 (generate data)) as H0.
  pose proof (list_count_nonneg 1 (generate data)) as H1.
  assert (Hk : 0 < Z.of_nat (length data))
    by (destruct data; [congruence|cbn [length]; lia]).
  rewrite <- Hsum in *.
  destruct (calculate_expected_runs_returns _ _ H0 H1 Hk Hlen) as [mu ->].
  cbn [Py.bind].
  destruct (calculate_variance_returns _ _ H0 H1) as [v Hv].
  { eapply Z.lt_trans; [exact Hlen|reflexivity]. }
  rewrite Hv. cbn [Py.bind].
  destruct (calculate_variance_shape _ _ v H0 H1 Hv) as [Hnn He].
  destruct (sigma_returns v Hnn) as [sg ->]. cbn [Py.bind].
  destruct (calculate_z_statistic_returns (count (generate data)) mu v) as [z ->];
    try assumption.
  { apply Z.abs_lt. lia. }
  cbn [Py.bind].
  destruct (get_critical_value_ok alpha) as [zc ->]. cbn [Py.bind].
  destruct (confidence_ok alpha) as [cf Hcf].
  destruct (Py.sub (VInt 1) alpha) as [d|e]; cbn [Py.bind] in Hcf |- *;
    [|discriminate].
  rewrite Hcf. cbn [Py.bind]. eexists; reflexivity.
Qed.

(** X1. [execute] returns a result record on every non-empty sample (of
    fewer than 2^1023 values) at every significance level, and on no
    other sample: the empty one is its only failure. *)
Theorem execute_returns_iff_nonempty (data : list value) (alpha : value) :
  Z.of_nat (length data) < 2 ^ 1023 ->
  (exists r, execute data alpha = Ok r) <-> data <> [].
Proof.
  intros Hlen. split.
  - intros [r Hr] ->. discriminate Hr.
  - intros Hne. apply execute_returns; assumption.
Qed.

Lemma execute_returns_iff_nonempty_witness :
  exists r, execute [VFloat (decimal 7 10)] (VInt 3) = Ok r.
Proof.
  apply (execute_returns_iff_nonempty [VFloat (decimal 7 10)] (VInt 3)).
  - reflexivity.
  - discriminate.
Defined.

(** * Further properties of the run counter *)

Section RunsCounterMore.

Lemma list_count_cons (x y : Z) (l : list Z) :
  list_count x (y :: l) = (if x =? y then 1 else 0) + list_count x l.
Proof.
  unfold list_count. cbn [filter]. destruct (x =? y); cbn [length]; lia.
Qed.

Lemma changes_zero_iff (l : list Z) :
  forall prev, changes prev l = 0 <-> l = repeat prev (length l).
Proof.
  induction l as [|y l IH]; intros prev; cbn [changes length repeat].
  - split; reflexivity.
  - pose proof (changes_bounds l y) as Hb. specialize (IH y).
    destruct (Z.eqb_spec y prev) as [->|Hne]; cbn [negb].
    + rewrite Z.add_0_l, IH. split; [intros <-; reflexivity|].
      intros [= H]. exact H.
    + split; [lia|]. intros [= H _]. congruence.
Qed.

(** In a binary sequence the changes after a symbol are bounded by the
    occurrences of either symbol. *)
Lemma changes_le_counts (l : list Z) :
  binary l ->
  forall prev, prev = 0 \/ prev = 1 ->
    changes prev l <= 2 * list_count (1 - prev) l /\
    changes prev l <= 2 * list_count prev l + 1.
Proof.
  induction 1 as [|y l Hy _ IH]; intros prev Hp.
  - unfold list_count. simpl. lia.
  - cbn [changes]. rewrite !list_count_cons.
    destruct (IH y Hy) as [IH1 IH2]. destruct (IH prev Hp) as [IH3 IH4].
    destruct Hy as [-> | ->], Hp as [-> | ->];
      change (1 - 0) with 1 in *; change (1 - 1) with 0 in *;
      change (0 =? 0) with true; change (1 =? 1) with true;
      change (0 =? 1) with false; change (1 =? 0) with false; cbn [negb];
      lia.
Qed.

Lemma changes_app (xs : list Z) :
  forall x y ys,
    changes x (xs ++ y :: ys)
    = changes x xs + (if negb (y =? last xs x) then 1 else 0) + changes y ys.
Proof.
  induction xs as [|a xs IH]; intros x y ys.
  - cbn [app changes last]. lia.
  - cbn [app changes]. rewrite IH.
    replace (last (a :: xs) x) with (last xs a); [lia|].
    clear. revert a x. induction xs as [|b xs IH]; intros a x; [reflexivity|].
    change (last (a :: b :: xs) x) with (last (b :: xs) x).
    rewrite <- (IH b a), <- (IH b x). reflexivity.
Qed.

Lemma changes_map_complement (l : list Z) :
  forall prev, changes (1 - prev) (map (fun x => 1 - x) l) = changes prev l.
Proof.
  induction l as [|y l IH]; intros prev; cbn [map changes]; [reflexivity|].
  rewrite IH. f_equal.
  destruct (Z.eqb_spec y prev), (Z.eqb_spec (1 - y) (1 - prev)); try reflexivity; lia.
Qed.

Lemma last_cons_default (a x : Z) (xs : list Z) : last (a :: xs) x = last xs a.
Proof.
  revert a x. induction xs as [|b xs IH]; intros a x; [reflexivity|].
  change (last (a :: b :: xs) x) with (last (b :: xs) x).
  rewrite (IH b x), (IH b a). reflexivity.
Qed.

End RunsCounterMore.

Lemma count_append (x y : Z) (xs ys : list Z) :
  count ((x :: xs) ++ y :: ys)
  = count (x :: xs) + count (y :: ys) - (if y =? last xs x then 1 else 0).
Proof.
  change ((x :: xs) ++ y :: ys) with (x :: (xs ++ y :: ys)).
  rewrite !count_cons, changes_app.
  destruct (y =? last xs x); cbn [negb]; lia.
Qed.

(** X2. Joining two non-empty sequences adds their run counts, less one
    when the last symbol of the first equals the first symbol of the
    second (the two border runs merge). *)
Theorem count_app (l1 l2 : list Z) :
  l1 <> [] -> l2 <> [] ->
  count (l1 ++ l2)
  = count l1 + count l2 - (if hd 0 l2 =? last l1 0 then 1 else 0).
Proof.
  destruct l1 as [|x xs]; [congruence|]. destruct l2 as [|y ys]; [congruence|].
  intros _ _. rewrite count_append. cbn [hd].
  rewrite last_cons_default. reflexivity.
Qed.

Lemma count_app_witness :
  count ([0; 0; 1] ++ [1; 0]) = count [0; 0; 1] + count [1; 0] - 1.
Proof.
  apply (count_app [0; 0; 1] [1; 0]); discriminate.
Defined.

(** X3. A non-empty sequence has exactly one run if and only if all its
    symbols are equal. *)
Theorem count_one_iff_constant (sequence : list Z) :
  sequence <> [] ->
  (count sequence = 1 <-> exists x, sequence = repeat x (length sequence)).
Proof.
  destruct sequence as [|x xs]; [congruence|]. intros _.
  rewrite count_cons. split.
  - intros H. exists x. cbn [length repeat]. f_equal.
    apply changes_zero_iff. lia.
  - intros [a H]. cbn [length repeat] in H. injection H as <- H.
    apply changes_zero_iff in H. lia.
Qed.

Lemma count_one_iff_constant_witness :
  count [1; 1; 1] = 1 /\ count [1; 0; 1] <> 1.
Proof.
  split.
  - apply (count_one_iff_constant [1; 1; 1]); [discriminate|].
    exists 1. reflexivity.
  - intros H. apply (count_one_iff_constant [1; 0; 1]) in H; [|discriminate].
    destruct H as [x H]. cbn [length repeat] in H. injection H as <- H. discriminate.
Defined.

(** X4. In a binary sequence the number of runs is at most twice the
    count of the rarer symbol plus one, and at least 2 as soon as both
    symbols occur. *)
Theorem count_le_twice_min (sequence : list Z) :
  binary sequence ->
  count sequence
    <= 2 * Z.min (fst (count_values sequence)) (snd (count_values sequence)) + 1 /\
  (0 < fst (count_values sequence) -> 0 < snd (count_values sequence) ->
   2 <= count sequence).
Proof.
  intros Hb. unfold count_values. cbn [fst snd].
  destruct sequence as [|x xs].
  - unfold list_count. simpl. lia.
  - assert (Hx : x = 0 \/ x = 1) by (inversion Hb; assumption).
    assert (Hxs : binary xs) by (inversion Hb; assumption).
    rewrite count_cons, !list_count_cons.
    destruct (changes_le_counts xs Hxs x Hx) as [H1 H2].
    pose proof (changes_bounds xs x) as Hcb.
    split.
    + destruct Hx as [-> | ->];
        change (1 - 0) with 1 in *; change (1 - 1) with 0 in *;
        change (0 =? 0) with true; change (1 =? 1) with true;
        change (0 =? 1) with false; change (1 =? 0) with false; cbn [negb]; lia.
    + intros H0 H1'.
      destruct (Z.eq_dec (changes x xs) 0) as [E|E]; [|lia].
      apply changes_zero_iff in E. exfalso.
      assert (Hc : forall y k, y <> x -> list_count y (repeat x k) = 0).
      { intros y k Hy. rewrite list_count_repeat.
        destruct (Z.eqb_spec y x); [congruence|reflexivity]. }
      rewrite E in H0, H1'.
      destruct Hx as [-> | ->].
      * rewrite (Hc 1) in H1' by lia. cbn [Z.eqb] in H1'. lia.
      * rewrite (Hc 0) in H0 by lia. cbn [Z.eqb] in H0. lia.
Qed.

Lemma count_le_twice_min_witness :
  count [0; 0; 1; 0; 0] <= 2 * 1 + 1 /\ 2 <= count [0; 0; 1; 0; 0].
Proof.
  assert (Hb : binary [0; 0; 1; 0; 0]) by (repeat constructor; auto).
  destruct (count_le_twice_min [0; 0; 1; 0; 0] Hb) as [H1 H2].
  split; [exact H1|]. apply H2; reflexivity.
Defined.

(** X5. Exchanging the two symbols of a sequence leaves the number of
    runs unchanged and exchanges the two symbol counts. *)
Theorem count_complement (sequence : list Z) :
  count (map (fun x => 1 - x) sequence) = count sequence /\
  count_values (map (fun x => 1 - x) sequence)
  = (snd (count_values sequence), fst (count_values sequence)).
Proof.
  split.
  - destruct sequence as [|x xs]; [reflexivity|].
    cbn [map]. rewrite !count_cons, changes_map_complement. reflexivity.
  - unfold count_values. cbn [fst snd].
    assert (H : forall a, list_count a (map (fun x => 1 - x) sequence)
                          = list_count (1 - a) sequence).
    { intros a. induction sequence as [|y l IH]; [reflexivity|].
      cbn [map]. rewrite !list_count_cons, IH. f_equal.
      destruct (Z.eqb_spec a (1 - y)), (Z.eqb_spec (1 - a) y); try reflexivity; lia. }
    rewrite !H. reflexivity.
Qed.

(** X6. Whatever the sequence holds, the two symbol counts never exceed
    its length together, and they add up to it only for a binary one. *)
Theorem count_values_le_length (sequence : list Z) :
  0 <= fst (count_values sequence) /\ 0 <= snd (count_values sequence) /\
  fst (count_values sequence) + snd (count_values sequence)
    <= Z.of_nat (length sequence) /\
  (fst (count_values sequence) + snd (count_values sequence)
     = Z.of_nat (length sequence) -> binary sequence).
Proof.
  unfold count_values. cbn [fst snd].
  split; [apply list_count_nonneg|]. split; [apply list_count_nonneg|].
  induction sequence as [|y l [IH1 IH2]].
  - split; [unfold list_count; simpl; lia|]. intros _. constructor.
  - rewrite !list_count_cons, length_cons, Nat2Z.inj_succ.
    pose proof (list_count_nonneg 0 l) as Hn0.
    pose proof (list_count_nonneg 1 l) as Hn1.
    destruct (Z.eqb_spec 0 y) as [E0|Hy0], (Z.eqb_spec 1 y) as [E1|Hy1].
    + lia.
    + split; [lia|]. intros H'. constructor; [left; lia|]. apply IH2. lia.
    + split; [lia|]. intros H'. constructor; [right; lia|]. apply IH2. lia.
    + split; [lia|]. intros H'. lia.
Qed.

Lemma count_values_le_length_witness :
  binary [1; 0; 0].
Proof.
  destruct (count_values_le_length [1; 0; 0]) as (_ & _ & _ & H).
  apply H. reflexivity.
Defined.

Section RunsReversal.

Lemma count_two (x y : Z) (ys : list Z) :
  count (x :: y :: ys) = (if y =? x then 0 else 1) + count (y :: ys).
Proof.
  rewrite !count_cons. cbn [changes]. destruct (y =? x); cbn [negb]; lia.
Qed.

End RunsReversal.

(** X7. Reading a sequence backwards does not change its number of runs. *)
Theorem count_rev (sequence : list Z) : count (rev sequence) = count sequence.
Proof.
  induction sequence as [|x xs IH]; [reflexivity|].
  destruct xs as [|y ys]; [reflexivity|].
  rewrite count_two. cbn [rev] in *.
  destruct (rev ys ++ [y]) as [|a l] eqn:E.
  { apply (f_equal (@length Z)) in E. rewrite length_app in E. cbn [length] in E. lia. }
  change ((a :: l) ++ [x]) with ((a :: l) ++ x :: []).
  rewrite count_append. rewrite IH.
  assert (Hl : last l a = y).
  { rewrite <- (last_cons_default a 0 l), <- E. apply last_last. }
  rewrite Hl. change (count [x]) with 1.
  rewrite (Z.eqb_sym x y). destruct (y =? x); lia.
Qed.

(** * Further properties of the provider and the validator *)

Section Verdict.

(** [<=] against a larger positive float bound. *)
Lemma leb_weaken (a : value) (mb mc : positive) (eb ec : Z) :
  bounded prec emax mb eb = true -> bounded prec emax mc ec = true ->
  eb < ec \/ (eb = ec /\ (mb <= mc)%positive) ->
  Py.leb a (VFloat (S754_finite false mb eb)) = true ->
  Py.leb a (VFloat (S754_finite false mc ec)) = true.
Proof.
  intros Hb Hc Hle. destruct a as [z|x].
  - intros H.
    assert (Hbc : scaled (VFloat (S754_finite false mb eb))
                  <= scaled (VFloat (S754_finite false mc ec))).
    { cbn [scaled scaled_float cond_Zopp]. destruct Hle as [Hlt|[-> Hm]].
      - apply Z.lt_le_incl. apply SF.bounded_lt; assumption.
      - apply SF.bounded_inv in Hc. destruct Hc as [Hc _].
        apply Z.mul_le_mono_nonneg_r; [apply Z.pow_nonneg; lia|].
        apply Pos2Z.pos_le_pos. exact Hm. }
    apply (SF.leb_exact (VInt z) (VFloat (S754_finite false mb eb))
             eq_refl Hb eq_refl eq_refl) in H.
    apply (SF.leb_exact (VInt z) (VFloat (S754_finite false mc ec))
             eq_refl Hc eq_refl eq_refl). lia.
  - unfold Py.leb, Py.compare.
    destruct x as [s|s| |s m e]; cbn [SFcompare]; try (intros; assumption).
    destruct s; [intros _; reflexivity|].
    destruct (Z.compare_spec e eb) as [->|Hlt|Hgt]; [| |intros H; discriminate H].
    + intros Hm. destruct Hle as [Hlt|[<- Hmc]].
      * rewrite (proj2 (Z.compare_lt_iff eb ec) Hlt). reflexivity.
      * rewrite Z.compare_refl.
        change (PosDef.Pos.compare_cont Eq m mb) with (m ?= mb)%positive in Hm.
        change (PosDef.Pos.compare_cont Eq m mc) with (m ?= mc)%positive.
        assert (Hmb : (m <= mb)%positive).
        { unfold Pos.le. destruct (m ?= mb)%positive; discriminate. }
        assert (Hmc' : (m <= mc)%positive) by lia.
        unfold Pos.le in Hmc'. destruct (m ?= mc)%positive; congruence.
    + intros _. assert (Hec : e < ec) by lia.
      rewrite (proj2 (Z.compare_lt_iff e ec) Hec). reflexivity.
Qed.

Lemma validate_weaken (z0 : value) (mb mc : positive) (eb ec : Z) :
  bounded prec emax mb eb = true -> bounded prec emax mc ec = true ->
  eb < ec \/ (eb = ec /\ (mb <= mc)%positive) ->
  validate z0 (VFloat (S754_finite false mb eb)) = true ->
  validate z0 (VFloat (S754_finite false mc ec)) = true.
Proof. unfold validate. apply leb_weaken. Qed.

Lemma table_values :
  decimal 2576 1000 = S754_finite false 5800636320053199 (-51) /\
  decimal 196 100 = S754_finite false 8827055269646172 (-52) /\
  decimal 1645 1000 = S754_finite false 7408421387024466 (-52).
Proof. repeat split; vm_compute; reflexivity. Qed.

End Verdict.

(** X8. The provider never fails: for every significance level it
    returns one of the three table values, each a positive number. *)
Theorem get_critical_value_range (alpha : value) :
  exists zc : float,
    get_critical_value alpha = Ok (VFloat zc) /\
    (zc = decimal 2576 1000 \/ zc = decimal 196 100 \/ zc = decimal 1645 1000) /\
    Py.gtb (VFloat zc) (VInt 0) = true.
Proof.
  rewrite get_critical_value_eq. eexists. split; [reflexivity|].
  destruct (Py.eqb alpha (VFloat (decimal 1 100))).
  { split; [left; reflexivity|vm_compute; reflexivity]. }
  destruct (Py.eqb alpha (VFloat (decimal 5 100))).
  { split; [right; left; reflexivity|vm_compute; reflexivity]. }
  destruct (Py.eqb alpha (VFloat (decimal 10 100))).
  { split; [right; right; reflexivity|vm_compute; reflexivity]. }
  split; [right; left; reflexivity|vm_compute; reflexivity].
Qed.

(** X9. A statistic accepted against the 90% critical value is accepted
    against the 95% one, and one accepted against the 95% value is accepted
    against the 99% one, whatever the statistic is. *)
Theorem validate_monotone_table (z0 : value) :
  (validate z0 (VFloat (decimal 1645 1000)) = true ->
   validate z0 (VFloat (decimal 196 100)) = true) /\
  (validate z0 (VFloat (decimal 196 100)) = true ->
   validate z0 (VFloat (decimal 2576 1000)) = true).
Proof.
  destruct table_values as (-> & -> & ->). split.
  - apply validate_weaken; try reflexivity.
    right. split; [reflexivity|]. vm_compute. discriminate.
  - apply validate_weaken; try reflexivity.
    left. reflexivity.
Qed.

Lemma validate_monotone_table_witness :
  validate (VFloat (decimal 17 10)) (VFloat (decimal 2576 1000)) = true.
Proof.
  destruct (validate_monotone_table (VFloat (decimal 17 10))) as [_ H].
  apply H. vm_compute. reflexivity.
Defined.

(** X10. The validator is two-sided and rejects NaN: a statistic and its
    opposite get the same verdict, and a NaN statistic or a NaN critical
    value gives false. *)
Theorem validate_two_sided :
  (forall (f : float) (zc : value),
     validate (VFloat (SFopp f)) zc = validate (VFloat f) zc) /\
  (forall (z : Z) (zc : value), validate (VInt (- z)) zc = validate (VInt z) zc) /\
  (forall zc : value, validate (VFloat S754_nan) zc = false) /\
  (forall z0 : value, validate z0 (VFloat S754_nan) = false).
Proof.
  split; [|split; [|split]].
  - intros f zc. unfold validate. cbn [Py.abs]. destruct f; reflexivity.
  - intros z zc. unfold validate. cbn [Py.abs]. rewrite Z.abs_opp. reflexivity.
  - intros [z|f]; reflexivity.
  - intros [z|[s|s| |s m e]]; reflexivity.
Qed.







(** X13. Every record [execute] returns is coherent: its sequence is the
    encoding of the sample, binary and of the sample's length n >= 1; the
    symbol counts are non-negative and add up to n; the run count lies
    between 1 and n; the variance is [>= 0]; the level is the one given and
    the verdict is the validator's on the recorded statistic and critical
    value. *)
Theorem execute_result_invariants (data : list value) (alpha0 : value)
        (r : RunsTestResult) :
  execute data alpha0 = Ok r ->
  sequence r = generate data /\ binary (sequence r) /\
  Z.of_nat (length (sequence r)) = n r /\ n r = Z.of_nat (length data) /\
  1 <= n r /\ 0 <= n0 r /\ 0 <= n1 r /\ n0 r + n1 r = n r /\
  1 <= c0 r <= n r /\
  Py.leb (VInt 0) (variance r) = true /\
  alpha r = alpha0 /\
  is_independent r = validate (z0 r) (z_critical r).
Proof.
  intros H.
  assert (Hne : data <> []) by (intros ->; discriminate H).
  destruct (execute_inv data alpha0 r H)
    as (mu & v & sg & z & zc & d & cf & _ & Ev & _ & _ & _ & _ & _ & ->).
  cbn [sequence n n0 n1 c0 variance alpha is_independent z0 z_critical].
  assert (Hlg : length (generate data) = length data)
    by (unfold generate; apply length_map).
  pose proof (count_values_generate data) as Hsum.
  unfold count_values in Hsum. cbn [fst snd] in Hsum.
  pose proof (list_count_nonneg 0 (generate data)) as H0.
  pose proof (list_count_nonneg 1 (generate data)) as H1.
  destruct (count_bounds (generate data)) as [Hc Hc1].
  rewrite Hlg in Hc.
  assert (Hk : 1 <= Z.of_nat (length data))
    by (destruct data; [congruence|cbn [length]; lia]).
  split; [reflexivity|]. split; [apply binary_generate|].
  split; [rewrite Hlg; reflexivity|]. split; [reflexivity|].
  split; [exact Hk|]. split; [exact H0|]. split; [exact H1|]. split; [exact Hsum|].
  split.
  { split; [|lia]. apply Hc1. intros E. rewrite E in Hlg.
    destruct data; [congruence|discriminate Hlg]. }
  split; [|split; reflexivity].
  rewrite <- Hsum in Ev.
  apply (nonneg_value_facts v (calculate_variance_sign _ _ v H0 H1 Ev)).
Qed.

Lemma execute_result_invariants_witness :
  exists r, execute sample5 (VFloat (decimal 5 100)) = Ok r /\
            n0 r + n1 r = n r /\ 1 <= c0 r <= n r.
Proof.
  destruct (execute sample5 (VFloat (decimal 5 100))) as [r|e] eqn:H.
  2:{ exfalso. revert H. vm_compute. discriminate. }
  exists r. split; [reflexivity|].
  destruct (execute_result_invariants sample5 _ r H)
    as (_ & _ & _ & _ & _ & _ & _ & Hs & Hc & _).
  split; assumption.
Defined.

(** X14. The expected number of runs is not defined for n = 0 and the
    function does not guard it: on ints it raises ZeroDivisionError exactly
    when n = 0, whatever the counts; the variance, which tests n <= 1
    first, never divides by zero on ints. *)
Theorem calculate_expected_runs_zero_division (k0 k1 k : Z) :
  (calculate_expected_runs (VInt k0) (VInt k1) (VInt k) = Raise ZeroDivisionError
   <-> k = 0) /\
  calculate_variance (VInt k0) (VInt k1) (VInt k) <> Raise ZeroDivisionError.
Proof.
  split.
  - unfold calculate_expected_runs. cbn [Py.mul Py.arith Py.bind Py.truediv].
    unfold int_truediv. destruct (Z.eqb_spec k 0) as [->|Hk].
    + split; reflexivity.
    + split; [|congruence]. intros H. exfalso. revert H.
      destruct (SFdiv prec emax (Z2SF (2 * k0 * k1)) (Z2SF k)); cbn [Py.bind];
        unfold Py.add, Py.arith; cbn [to_float Py.bind]; discriminate.
  - destruct (Z_le_gt_dec k 1) as [Hk|Hk].
    + unfold calculate_variance. rewrite leb_int.
      destruct (Z.leb_spec k 1); [discriminate|lia].
    + rewrite calculate_variance_int by lia. unfold int_truediv.
      destruct (Z.eqb_spec (k * k * (k - 1)) 0) as [E|_]; [nia|].
      destruct (SFdiv prec emax _ _); cbn [Py.bind]; discriminate.
Qed.

(** X15. Both statistics depend on the two symbol counts symmetrically:
    exchanging n0 and n1 changes neither the expected runs nor the
    variance. *)
Theorem statistics_symmetric (k0 k1 k : Z) :
  calculate_expected_runs (VInt k0) (VInt k1) (VInt k)
  = calculate_expected_runs (VInt k1) (VInt k0) (VInt k) /\
  calculate_variance (VInt k0) (VInt k1) (VInt k)
  = calculate_variance (VInt k1) (VInt k0) (VInt k).
Proof.
  split.
  - unfold calculate_expected_runs. cbn [Py.mul Py.arith Py.bind].
    replace (2 * k1 * k0) with (2 * k0 * k1) by ring. reflexivity.
  - unfold calculate_variance. cbn [Py.mul Py.sub Py.arith Py.bind].
    replace (2 * k1 * k0) with (2 * k0 * k1) by ring. reflexivity.
Qed.

(** * The parser of the sample *)

Section Tokens.

Lemma split_from_tokens (s : str) :
  forall cur, nospace cur ->
    Forall (fun t => t <> [] /\ nospace t) (split_from s cur).
Proof.
  induction s as [|c s IH]; intros cur Hcur; cbn [split_from].
  - destruct cur; constructor; [|constructor]. split; [discriminate|exact Hcur].
  - destruct (isspace c) eqn:Hc.
    + destruct cur as [|a cur']; [apply IH; constructor|].
      constructor; [split; [discriminate|exact Hcur]|]. apply IH. constructor.
    + apply IH. apply Forall_app. split; [exact Hcur|]. repeat constructor. exact Hc.
Qed.

Lemma split_from_forall (P : N -> Prop) (s : str) :
  forall cur, Forall P s -> Forall P cur -> Forall (Forall P) (split_from s cur).
Proof.
  induction s as [|c s IH]; intros cur Hs Hcur; cbn [split_from].
  - destruct cur; constructor; [exact Hcur|constructor].
  - inversion Hs as [|? ? Hc Hs']; subst. destruct (isspace c).
    + destruct cur as [|a cur']; [apply IH; [exact Hs'|constructor]|].
      constructor; [exact Hcur|]. apply IH; [exact Hs'|constructor].
    + apply IH; [exact Hs'|]. apply Forall_app. split; [exact Hcur|].
      repeat constructor. exact Hc.
Qed.

Lemma split_from_length (s : str) :
  forall cur,
    (length (split_from s cur) <= length s + match cur with [] => 0 | _ :: _ => 1 end)%nat.
Proof.
  induction s as [|c s IH]; intros cur; cbn [split_from].
  - destruct cur; simpl; lia.
  - destruct (isspace c).
    + destruct cur; [specialize (IH []); simpl in *; lia|].
      specialize (IH []). simpl in *. lia.
    + specialize (IH (cur ++ [c])).
      destruct (cur ++ [c]) eqn:E; [destruct cur; discriminate|].
      destruct cur; simpl in *; lia.
Qed.

Lemma split_from_spaces (s : str) :
  Forall (fun c => isspace c = true) s -> split_from s [] = [].
Proof.
  induction 1 as [|c s Hc _ IH]; [reflexivity|].
  cbn [split_from]. rewrite Hc. exact IH.
Qed.

Lemma split_from_token (t : str) :
  forall s cur, nospace t -> split_from (t ++ s) cur = split_from s (cur ++ t).
Proof.
  induction t as [|c t IH]; intros s cur Ht.
  - rewrite app_nil_r. reflexivity.
  - inversion Ht as [|? ? Hc Ht']; subst. cbn [app split_from]. rewrite Hc.
    rewrite IH by exact Ht'. rewrite <- app_assoc. reflexivity.
Qed.

Lemma lstrip_nospace (t : str) : nospace t -> lstrip t = t.
Proof.
  destruct 1 as [|c t Hc _]; [reflexivity|]. cbn [lstrip]. rewrite Hc. reflexivity.
Qed.

Lemma strip_nospace (t : str) : nospace t -> strip t = t.
Proof.
  intros Ht. unfold strip. rewrite (lstrip_nospace t Ht).
  rewrite lstrip_nospace; [apply rev_involutive|].
  unfold nospace. apply Forall_rev. exact Ht.
Qed.

Lemma filter_strip_tokens (ts : list str) :
  Forall (fun t => t <> [] /\ nospace t) ts ->
  filter (fun x => str_bool (strip x)) ts = ts.
Proof.
  induction 1 as [|t ts [Hne Ht] _ IH]; [reflexivity|].
  cbn [filter]. rewrite (strip_nospace t Ht), IH.
  destruct t; [congruence|reflexivity].
Qed.

Lemma str_replace_no_old (old new : N) (s : str) :
  old <> new -> Forall (fun c => c <> old) (str_replace old new s).
Proof.
  intros Hne. unfold str_replace. apply Forall_forall. intros c Hc.
  apply in_map_iff in Hc. destruct Hc as (a & <- & _).
  destruct (N.eqb_spec a old); congruence.
Qed.

Lemma str_replace_id (old new : N) (s : str) :
  Forall (fun c => c <> old) s -> str_replace old new s = s.
Proof.
  unfold str_replace. induction 1 as [|c s Hc _ IH]; [reflexivity|].
  cbn [map]. rewrite IH. destruct (N.eqb_spec c old); congruence.
Qed.

Lemma comprehension_length {A B : Type} (f : A -> result B) (xs : list A) (ys : list B) :
  comprehension f xs = Ok ys -> length ys = length xs.
Proof.
  revert ys. induction xs as [|x xs IH]; intros ys; cbn [comprehension].
  - intros [= <-]. reflexivity.
  - destruct (f x); cbn [Py.bind]; [|discriminate].
    destruct (comprehension f xs) as [zs|]; cbn [Py.bind]; [|discriminate].
    intros [= <-]. cbn [length]. f_equal. apply IH. reflexivity.
Qed.

Lemma comprehension_raises (g : str -> option float) (xs : list str) (e : exn) :
  comprehension (py_float g) xs = Raise e -> e = ValueError.
Proof.
  induction xs as [|x xs IH]; cbn [comprehension]; [discriminate|].
  unfold py_float at 1. destruct (g x); cbn [Py.bind]; [|intros [= <-]; reflexivity].
  destruct (comprehension (py_float g) xs); cbn [Py.bind]; [discriminate|].
  intros [= <-]. apply IH. reflexivity.
Qed.

(** [parse] is the comprehension over all the tokens: its filter on
    [x.strip()] never drops one. *)
Lemma parse_eq (g : str -> option float) (data_input : str) :
  parse g data_input =
    (data <- comprehension (py_float g)
               (str_split (str_replace COMMA SPACE data_input)) ;;
     match data with [] => Raise ValueError | _ :: _ => Ok data end).
Proof.
  unfold parse. rewrite filter_strip_tokens; [reflexivity|].
  apply split_from_tokens. constructor.
Qed.

End Tokens.

(** X16. The tokens [parse] converts are never empty and hold neither
    whitespace nor a comma, so that its test on [x.strip()] keeps every one
    of them. *)
Theorem parse_tokens (data_input : str) :
  let tokens := str_split (str_replace COMMA SPACE data_input) in
  Forall (fun t => t <> [] /\
                   Forall (fun c => isspace c = false /\ c <> COMMA) t) tokens /\
  filter (fun x => str_bool (strip x)) tokens = tokens.
Proof.
  cbn zeta. unfold str_split.
  pose proof (split_from_tokens (str_replace COMMA SPACE data_input) [] ltac:(constructor))
    as H1.
  pose proof (split_from_forall (fun c => c <> COMMA) _ []
                (str_replace_no_old COMMA SPACE data_input ltac:(discriminate))
                ltac:(constructor)) as H2.
  split; [|apply filter_strip_tokens; exact H1].
  rewrite Forall_forall in *. intros t Ht.
  destruct (H1 t Ht) as [Hne Hns]. specialize (H2 t Ht).
  split; [exact Hne|].
  unfold nospace in Hns. rewrite Forall_forall in *. intros c Hc.
  split; [apply Hns|apply H2]; exact Hc.
Qed.

(** X17. [parse] fails with ValueError, and with nothing else: on an
    input of whitespace and commas only (the empty string included) and when
    [float] rejects a token.  When it returns, the list is not empty and has
    one number per token. *)
Theorem parse_errors (g : str -> option float) (data_input : str) :
  (Forall (fun c => isspace c = true \/ c = COMMA) data_input ->
   parse g data_input = Raise ValueError) /\
  (forall e, parse g data_input = Raise e -> e = ValueError) /\
  (forall data, parse g data_input = Ok data ->
     data <> [] /\
     length data = length (str_split (str_replace COMMA SPACE data_input)) /\
     (length data <= length data_input)%nat).
Proof.
  rewrite parse_eq. split; [|split].
  - intros H. unfold str_split. rewrite split_from_spaces; [reflexivity|].
    unfold str_replace. apply Forall_forall. intros c Hc.
    apply in_map_iff in Hc. destruct Hc as (a & <- & Ha).
    rewrite Forall_forall in H. destruct (N.eqb_spec a COMMA); [reflexivity|].
    destruct (H a Ha); [assumption|congruence].
  - intros e. destruct (comprehension _ _) as [data|e'] eqn:E; cbn [Py.bind].
    + destruct data; [intros [= <-]; reflexivity|discriminate].
    + intros [= <-]. apply (comprehension_raises _ _ _ E).
  - intros data. destruct (comprehension _ _) as [data'|e'] eqn:E; cbn [Py.bind];
      [|discriminate].
    destruct data' as [|v data']; [discriminate|]. intros [= <-].
    apply comprehension_length in E.
    split; [discriminate|]. split; [exact E|].
    rewrite E. unfold str_split.
    pose proof (split_from_length (str_replace COMMA SPACE data_input) []) as Hl.
    unfold str_replace in Hl at 2. rewrite length_map in Hl. simpl in Hl. lia.
Qed.

Lemma parse_errors_witness :
  parse (fun _ => Some (decimal 5 10)) [SPACE; COMMA; 9%N; COMMA] = Raise ValueError.
Proof.
  apply (parse_errors (fun _ => Some (decimal 5 10)) [SPACE; COMMA; 9%N; COMMA]).
  constructor; [left; reflexivity|]. constructor; [right; reflexivity|].
  constructor; [left; reflexivity|]. constructor; [right; reflexivity|].
  constructor.
Defined.

Section ParseMore.

Lemma parse_ok_inv (g : str -> option float) (data_input : str) (data : list value) :
  parse g data_input = Ok data ->
  data <> [] /\ (length data <= length data_input)%nat.
Proof.
  rewrite parse_eq.
  destruct (comprehension _ _) as [data'|e'] eqn:E; cbn [Py.bind]; [|discriminate].
  destruct data' as [|v data']; [discriminate|]. intros [= <-].
  apply comprehension_length in E. split; [discriminate|].
  rewrite E. unfold str_split.
  pose proof (split_from_length (str_replace COMMA SPACE data_input) []) as Hl.
  unfold str_replace in Hl at 2. rewrite length_map in Hl. simpl in Hl. lia.
Qed.

Lemma parse_raises (g : str -> option float) (data_input : str) (e : exn) :
  parse g data_input = Raise e -> e = ValueError.
Proof.
  rewrite parse_eq.
  destruct (comprehension _ _) as [data|e'] eqn:E; cbn [Py.bind].
  - destruct data; [intros [= <-]; reflexivity|discriminate].
  - intros [= <-]. apply (comprehension_raises _ _ _ E).
Qed.

Lemma str_replace_app (old new : N) (s t : str) :
  str_replace old new (s ++ t) = str_replace old new s ++ str_replace old new t.
Proof. unfold str_replace. apply map_app. Qed.

End ParseMore.

(** X18. Round trip with the text the generator of random data writes:
    tokens that are non-empty and free of whitespace and commas, joined with
    ", ", are split back into exactly those tokens, so that [parse] converts
    them one by one. *)
Theorem split_join_roundtrip (g : str -> option float) (tokens : list str) :
  Forall (fun t => t <> [] /\
                   Forall (fun c => isspace c = false /\ c <> COMMA) t) tokens ->
  str_split (str_replace COMMA SPACE (join [COMMA; SPACE] tokens)) = tokens /\
  parse g (join [COMMA; SPACE] tokens) =
    (data <- comprehension (py_float g) tokens ;;
     match data with [] => Raise ValueError | _ :: _ => Ok data end).
Proof.
  intros H.
  assert (Hsplit : str_split (str_replace COMMA SPACE (join [COMMA; SPACE] tokens))
                   = tokens).
  { unfold str_split. induction H as [|t rest [Hne Ht] Hrest IH]; [reflexivity|].
    assert (Hns : nospace t).
    { unfold nospace. eapply Forall_impl; [|exact Ht]. intros c [Hc _]. exact Hc. }
    assert (Hnc : Forall (fun c => c <> COMMA) t).
    { eapply Forall_impl; [|exact Ht]. intros c [_ Hc]. exact Hc. }
    destruct rest as [|t' rest'].
    - cbn [join]. rewrite (str_replace_id _ _ _ Hnc).
      rewrite <- (app_nil_r t) at 1. rewrite (split_from_token t [] [] Hns).
      cbn [app split_from]. destruct t; [congruence|reflexivity].
    - change (join [COMMA; SPACE] (t :: t' :: rest'))
        with (t ++ [COMMA; SPACE] ++ join [COMMA; SPACE] (t' :: rest')).
      rewrite !str_replace_app, (str_replace_id _ _ _ Hnc).
      rewrite (split_from_token t _ [] Hns). cbn [app].
      change (str_replace COMMA SPACE [COMMA; SPACE]) with [SPACE; SPACE].
      cbn [app split_from]. change (isspace SPACE) with true. cbn iota.
      destruct t as [|c t]; [congruence|]. f_equal. exact IH. }
  split; [exact Hsplit|]. rewrite parse_eq, Hsplit. reflexivity.
Qed.

Lemma split_join_roundtrip_witness :
  str_split (str_replace COMMA SPACE (join [COMMA; SPACE] [[48; DOT; 53]; [49]]%N))
  = [[48; DOT; 53]; [49]]%N.
Proof.
  apply (split_join_roundtrip (fun _ => None) [[48; DOT; 53]; [49]]%N).
  constructor; [split; [discriminate|]|].
  - repeat (constructor; [split; [reflexivity|discriminate]|]). constructor.
  - constructor; [split; [discriminate|]|constructor].
    repeat (constructor; [split; [reflexivity|discriminate]|]). constructor.
Defined.

(** X19. In the sample a comma separates exactly like a space: replacing
    the commas of the input by spaces does not change what [parse] does. *)
Theorem parse_comma_is_space (g : str -> option float) (data_input : str) :
  parse g (str_replace COMMA SPACE data_input) = parse g data_input.
Proof.
  rewrite !parse_eq.
  rewrite (str_replace_id COMMA SPACE (str_replace COMMA SPACE data_input));
    [reflexivity|].
  apply str_replace_no_old. discriminate.
Qed.

(** X20. Whatever [parse] returns, [execute] runs to its end on: the
    parsed sample is never empty, so that the division by n = 0 cannot be
    reached through the parser (inputs of fewer than 2^1023 characters). *)
Theorem parse_then_execute (g : str -> option float) (data_input : str)
        (data : list value) (alpha : value) :
  Z.of_nat (length data_input) < 2 ^ 1023 ->
  parse g data_input = Ok data ->
  exists r, execute data alpha = Ok r.
Proof.
  intros Hlen Hp. destruct (parse_ok_inv g data_input data Hp) as [Hne Hl].
  apply execute_returns; [exact Hne|lia].
Qed.

Lemma parse_then_execute_witness :
  exists data r,
    parse (fun _ => Some (decimal 7 10)) [49; SPACE; 50]%N = Ok data /\
    execute data (VFloat (decimal 5 100)) = Ok r.
Proof.
  destruct (parse (fun _ => Some (decimal 7 10)) [49; SPACE; 50]%N) as [data|e] eqn:Hp.
  2:{ exfalso. revert Hp. vm_compute. discriminate. }
  exists data.
  destruct (parse_then_execute (fun _ => Some (decimal 7 10)) [49; SPACE; 50]%N
              data (VFloat (decimal 5 100)) eq_refl Hp) as [r Hr].
  exists r. split; [reflexivity|exact Hr].
Defined.

(** * The controller of the test *)

(** X21. The significance level is checked before the sample is looked
    at: whatever the sample text, a level that [float] rejects ends in the
    data-error message, and a level that is not strictly between 0 and 1,
    NaN included, ends in the message on the significance level. *)
Theorem handle_alpha_gate (g : str -> option float) (data_input alpha_raw : str) :
  alpha_raw <> [] ->
  (g (str_replace COMMA DOT alpha_raw) = None ->
   handle_test_execution g data_input alpha_raw = DataError) /\
  (forall a : float,
     g (str_replace COMMA DOT alpha_raw) = Some a ->
     Py.ltb (VInt 0) (VFloat a) && Py.ltb (VFloat a) (VInt 1) = false ->
     handle_test_execution g data_input alpha_raw = AlphaRejected) /\
  (g (str_replace COMMA DOT alpha_raw) = Some S754_nan ->
   handle_test_execution g data_input alpha_raw = AlphaRejected).
Proof.
  intros Hne.
  assert (Hb : str_bool alpha_raw = true) by (destruct alpha_raw; [congruence|reflexivity]).
  assert (Hgate : forall a : float,
     g (str_replace COMMA DOT alpha_raw) = Some a ->
     Py.ltb (VInt 0) (VFloat a) && Py.ltb (VFloat a) (VInt 1) = false ->
     handle_test_execution g data_input alpha_raw = AlphaRejected).
  { intros a Ha Hg. unfold handle_test_execution, test_execution_body.
    rewrite Hb. unfold py_float. rewrite Ha. cbn [Py.bind]. rewrite Hg. reflexivity. }
  split; [|split].
  - intros Hnone. unfold handle_test_execution, test_execution_body.
    rewrite Hb. unfold py_float. rewrite Hnone. reflexivity.
  - exact Hgate.
  - intros Hnan. apply (Hgate S754_nan Hnan). reflexivity.
Qed.

Lemma handle_alpha_gate_witness :
  handle_test_execution (fun _ => Some (decimal 15 10)) [49]%N [49; COMMA; 53]%N
  = AlphaRejected.
Proof.
  destruct (handle_alpha_gate (fun _ => Some (decimal 15 10)) [49]%N [49; COMMA; 53]%N)
    as (_ & H & _); [discriminate|].
  apply (H (decimal 15 10)); [reflexivity|vm_compute; reflexivity].
Defined.

(** X22. The handler never ends in its unexpected-error message (inputs
    of fewer than 2^1023 characters): every failure of the core is caught
    before as a rejected level or an error in the data.  When it reaches the
    presenter, the sample shown is the parsed one, non-empty, and the result
    is the one of [execute] at a level strictly between 0 and 1. *)
Theorem handle_never_unexpected (g : str -> option float) (data_input alpha_raw : str) :
  Z.of_nat (length data_input) < 2 ^ 1023 ->
  (forall e, handle_test_execution g data_input alpha_raw <> UnexpectedError e) /\
  (forall r data,
     handle_test_execution g data_input alpha_raw = Presented r data ->
     parse g data_input = Ok data /\ data <> [] /\
     execute data (alpha r) = Ok r /\
     Py.ltb (VInt 0) (alpha r) && Py.ltb (alpha r) (VInt 1) = true).
Proof.
  intros Hlen. unfold handle_test_execution, test_execution_body.
  destruct (if str_bool alpha_raw then _ else _) as [a|e0] eqn:Ea; cbn [Py.bind].
  2:{ assert (e0 = ValueError) as ->.
      { revert Ea. destruct (str_bool alpha_raw); [|discriminate].
        unfold py_float. destruct (g _); [discriminate|]. intros [= <-]. reflexivity. }
      split; [intros e; discriminate|intros r data; discriminate]. }
  destruct (Py.ltb (VInt 0) a && Py.ltb a (VInt 1)) eqn:Hg; cbn [negb].
  2:{ split; [intros e; discriminate|intros r data; discriminate]. }
  destruct (parse g data_input) as [data|e1] eqn:Hp; cbn [Py.bind].
  2:{ apply parse_raises in Hp. subst e1.
      split; [intros e; discriminate|intros r data; discriminate]. }
  destruct (parse_ok_inv g data_input data Hp) as [Hne Hl].
  destruct (execute_returns data a Hne ltac:(lia)) as [r Hr].
  rewrite Hr. cbn [Py.bind]. split; [intros e; discriminate|].
  intros r' data' [= <- <-].
  destruct (execute_inv data a r Hr)
    as (mu & v & sg & z & zc & d & cf & _ & _ & _ & _ & _ & _ & _ & Er).
  assert (Ealpha : alpha r = a) by (rewrite Er; reflexivity).
  rewrite Ealpha. repeat split; assumption.
Qed.

Lemma handle_never_unexpected_witness :
  handle_test_execution (fun _ => Some (decimal 5 10)) [] []
  <> UnexpectedError ZeroDivisionError.
Proof.
  apply (handle_never_unexpected (fun _ => Some (decimal 5 10)) [] []).
  reflexivity.
Defined.

(** * Further properties of the encoder and of the recorded deviation *)

(** X23. Ints are compared with the threshold exactly: an int sample is
    encoded to 0 at the values [<= 0] and to 1 at the values [>= 1], so
    that a sample that already is a binary sequence is encoded to itself. *)
Theorem generate_ints (zs : list Z) :
  generate (map VInt zs) = map (fun z => if z <=? 0 then 0 else 1) zs /\
  (binary zs -> generate (map VInt zs) = zs).
Proof.
  assert (H : generate (map VInt zs) = map (fun z => if z <=? 0 then 0 else 1) zs).
  { unfold generate. rewrite map_map. apply map_ext. intros z.
    assert (E : THRESHOLD = S754_finite false 4503599627370496 (-53))
      by (vm_compute; reflexivity).
    rewrite E. unfold Py.ltb, Py.compare, Zcompare_float. cbn [cond_Zopp].
    change (Z.max 0 (- -53)) with 53. change (Z.max 0 (-53)) with 0.
    change (2 ^ 0) with 1. rewrite Z.mul_1_r.
    change 4503599627370496 with (2 ^ 52). change (2 ^ 53) with (2 * 2 ^ 52).
    pose proof (SF.pow2_pos 52 ltac:(lia)) as Hp.
    destruct (Z.leb_spec z 0) as [Hz|Hz].
    - assert (C : (z * (2 * 2 ^ 52) ?= 2 ^ 52) = Lt) by (apply Z.compare_lt_iff; nia).
      rewrite C. reflexivity.
    - assert (C : (z * (2 * 2 ^ 52) ?= 2 ^ 52) = Gt) by (apply Z.compare_gt_iff; nia).
      rewrite C. reflexivity. }
  split; [exact H|].
  intros Hb. rewrite H. clear H.
  induction Hb as [|x l Hx _ IH]; [reflexivity|].
  cbn [map]. rewrite IH. destruct Hx as [-> | ->]; reflexivity.
Qed.

Lemma generate_ints_witness : generate (map VInt [0; 1; 1; 0]) = [0; 1; 1; 0].
Proof.
  apply (generate_ints [0; 1; 1; 0]).
  repeat (constructor; [(left; reflexivity) || (right; reflexivity)|]).
  constructor.
Defined.

(** X24. The deviation recorded in the result is the one the statistic
    was divided by: when the variance is positive, sigma_c0 is its square
    root and Z0 is (c0 - mu_c0) / sigma_c0; otherwise sigma_c0 and Z0 are
    both the int 0. *)
Theorem execute_sigma_coherent (data : list value) (alpha0 : value)
        (r : RunsTestResult) :
  execute data alpha0 = Ok r ->
  (Py.gtb (variance r) (VInt 0) = true ->
   exists s : float,
     math_sqrt (variance r) = Ok s /\ sigma_c0 r = VFloat s /\
     (d <- Py.sub (VInt (c0 r)) (mu_c0 r) ;; Py.truediv d (VFloat s)) = Ok (z0 r)) /\
  (Py.gtb (variance r) (VInt 0) = false ->
   sigma_c0 r = VInt 0 /\ z0 r = VInt 0).
Proof.
  intros H.
  pose proof (count_values_generate data) as Hsum.
  unfold count_values in Hsum. cbn [fst snd] in Hsum.
  pose proof (list_count_nonneg 0 (generate data)) as H0.
  pose proof (list_count_nonneg 1 (generate data)) as H1.
  destruct (execute_inv data alpha0 r H)
    as (mu & v & sg & z & zc & d & cf & _ & Ev & Esg & Ez & _ & _ & _ & ->).
  cbn [variance sigma_c0 z0 c0 mu_c0].
  rewrite <- Hsum in Ev.
  pose proof (calculate_variance_sign _ _ v H0 H1 Ev) as Hnn.
  unfold calculate_z_statistic in Ez.
  destruct (Py.gtb v (VInt 0)) eqn:G; split; try discriminate.
  - intros _. rewrite (gtb_zero v G) in Ez.
    destruct (math_sqrt v) as [s|e]; cbn [Py.bind] in Esg, Ez; [|discriminate].
    injection Esg as <-. exists s. repeat split. exact Ez.
  - intros _. injection Esg as <-. split; [reflexivity|].
    assert (L : Py.leb v (VInt 0) = true).
    { destruct v as [x|[s|s| |s m e]]; cbn [nonneg_value nonneg_finite] in Hnn;
        try contradiction; subst; try reflexivity.
      exfalso. revert G. unfold Py.gtb, Py.compare, Zcompare_float.
      cbn [option_map cond_Zopp].
      pose proof (SF.pow2_pos (Z.max 0 e) ltac:(lia)) as Hp.
      assert (C : (0 * 2 ^ Z.max 0 (- e) ?= Zpos m * 2 ^ Z.max 0 e) = Lt)
        by (apply Z.compare_lt_iff; nia).
      rewrite C. discriminate. }
    rewrite L in Ez. injection Ez as <-. reflexivity.
Qed.

Lemma execute_sigma_coherent_witness :
  exists r s, execute sample5 (VFloat (decimal 5 100)) = Ok r /\
              sigma_c0 r = VFloat s /\ math_sqrt (variance r) = Ok s.
Proof.
  destruct (execute sample5 (VFloat (decimal 5 100))) as [r|e] eqn:H.
  2:{ exfalso. revert H. vm_compute. discriminate. }
  destruct (execute_sigma_coherent sample5 _ r H) as [Hpos _].
  destruct Hpos as (s & Hs & Hsg & _).
  { revert H. vm_compute. intros [= <-]. reflexivity. }
  exists r, s. split; [reflexivity|]. split; assumption.
Defined.
